(** * Redfin county pipeline: fetcher and transformer

  A shallow embedding of the two notebook stages of the repository:
  [fetch_data] (download the weekly housing-market file) and
  [filter_data] (keep the latest 12-week county rows and clean the county
  names), together with the properties of the written specification that
  can be stated over them. *)

From Stdlib Require Import QArith.
From stdpp Require Import gmap strings list pretty.

Local Open Scope string_scope.

(** ** Text: the string operations pandas delegates to Python's [str] *)

Module Text.

(** [old in s]: some suffix of [s] starts with [old]. *)
Fixpoint contains (old s : string) : bool :=
  String.prefix old s ||
  match s with
  | EmptyString => false
  | String _ s' => contains old s'
  end.

(** The left-to-right scan of [str.replace]: [skip] counts the characters
    of a match already found that are still to be consumed, so matches
    never overlap. *)
Fixpoint replace_go (old new : string) (skip : nat) (s : string) : string :=
  match s with
  | EmptyString => EmptyString
  | String c s' =>
      match skip with
      | S k => replace_go old new k s'
      | O =>
          if String.prefix old s
          then new +:+ replace_go old new (String.length old - 1) s'
          else String c (replace_go old new 0 s')
      end
  end.

(** [s.replace(old, new)] with the default count (-1: every occurrence),
    for a non-empty [old], which is the only way the pipeline calls it. *)
Definition str_replace (old new s : string) : string :=
  replace_go old new 0 s.

(** [String.length old] characters dropped from the front. *)
Fixpoint drop_chars (n : nat) (s : string) : string :=
  match n, s with
  | S k, String _ s' => drop_chars k s'
  | _, _ => s
  end.

(** [s.replace(old, new, 1)]: the reading of the written specification,
    in which only the first occurrence is replaced. *)
Fixpoint replace_first (old new s : string) : string :=
  match s with
  | EmptyString => EmptyString
  | String c s' =>
      if String.prefix old s
      then new +:+ drop_chars (String.length old) s
      else String c (replace_first old new s')
  end.



End Text.

(** ** Transformer: [load_redfin_data] output and [filter_data] *)

(** The five columns that [load_redfin_data] keeps ([usecols]).  Text cells
  and the price may be missing (NaN).  [period_end] is kept as the text
  read from the file and is taken to be present in every row: what
  [Series.max] does with a missing entry in a text column differs between
  pandas versions. *)
Module Raw.
Record row := mk {
  period_end : string;
  region_type : option string;
  region_name : option string;
  duration : option string;
  median_sale_price : option Q
}.
End Raw.

(** The frame after [[['region_name', 'median_sale_price']]]. *)
Module Proj.
Record row := mk {
  region_name : option string;
  median_sale_price : option Q
}.
End Proj.

(** The frame after [rename(columns={"region_name": "county"})]. *)
Module Out.
Record row := mk {
  county : option string;
  median_sale_price : option Q
}.
End Out.

Module Transformer.
Import Text.

(** A DataFrame: rows in file order, each with its index label. *)
Definition Frame (R : Type) : Type := list (nat * R).

(** [read_csv] numbers the rows 0, 1, 2, ... *)
Definition range_index {R} (rows : list R) : Frame R :=
  zip (seq 0 (length rows)) rows.

(** [df[name]]: one column, as a Series aligned with the frame. *)
Definition column {R A} (f : R -> A) (df : Frame R) : list A :=
  map (fun x => f (snd x)) df.

(** [a <= b] on text, as Python compares [str]. *)
Definition str_max (a b : string) : string :=
  if String.leb a b then b else a.

(** [Series.max()]: NaN ([None]) on an empty Series. *)
Definition series_max (s : list string) : option string :=
  match s with
  | [] => None
  | x :: t => Some (foldl str_max x t)
  end.

(** [series == value]: a missing cell compares unequal. *)
Definition series_eq (s : list (option string)) (v : string) : list bool :=
  map (fun c => match c with Some t => String.eqb t v | None => false end) s.

(** [mask1 & mask2]. *)
Definition mask_and (m1 m2 : list bool) : list bool := zip_with andb m1 m2.

(** [df.loc[mask]]: the rows whose mask entry is True, as a new frame.
    The masks of [filter_data] are computed from the frame they select
    from, so both always have the same length. *)
Fixpoint loc {R} (df : Frame R) (mask : list bool) : Frame R :=
  match df, mask with
  | x :: df', b :: mask' => if b then x :: loc df' mask' else loc df' mask'
  | _, _ => []
  end.

Definition notna {A} (c : option A) : bool :=
  match c with Some _ => true | None => false end.

(** [.dropna(subset=['median_sale_price'])]. *)
Definition dropna_median_sale_price (df : Frame Raw.row) : Frame Raw.row :=
  loc df (map notna (column Raw.median_sale_price df)).

(** [.query("period_end == @max_dt")]: nothing equals a NaN [max_dt]. *)
Definition query_period_end (max_dt : option string) (df : Frame Raw.row)
  : Frame Raw.row :=
  loc df (map (fun d => match max_dt with
                        | Some m => String.eqb d m
                        | None => false
                        end) (column Raw.period_end df)).

(** [[['region_name', 'median_sale_price']]]. *)
Definition project (df : Frame Raw.row) : Frame Proj.row :=
  map (fun x => (fst x, Proj.mk (Raw.region_name (snd x))
                                (Raw.median_sale_price (snd x)))) df.

(** [series.str.replace(old, new, regex=False)] on the cells of a column
    stored as text: missing stays missing.  Whether [.str] is available at
    all is [Typed.str_accessor]. *)
Definition str_replace_series (old new : string) (s : list (option string))
  : list (option string) :=
  map (option_map (str_replace old new)) s.

(** [df['region_name'] = series], the series sharing the frame's index. *)
Definition setitem_region_name (df : Frame Proj.row)
    (s : list (option string)) : Frame Proj.row :=
  zip_with (fun x v => (fst x, Proj.mk v (Proj.median_sale_price (snd x))))
           df s.

(** [.rename(columns={"region_name": "county"})]. *)
Definition rename (df : Frame Proj.row) : Frame Out.row :=
  map (fun x => (fst x, Out.mk (Proj.region_name (snd x))
                               (Proj.median_sale_price (snd x)))) df.

Definition max_dt (df : Frame Raw.row) : option string :=
  series_max (column Raw.period_end df).

(** The raw rows that survive the three filters (the frame before the
    column projection). *)
Definition select_rows (df : Frame Raw.row) : Frame Raw.row :=
  query_period_end (max_dt df)
    (dropna_median_sale_price
       (loc df (mask_and (series_eq (column Raw.region_type df) "county")
                         (series_eq (column Raw.duration df) "12 weeks")))).

(** The four chained [.str.replace] calls. *)
Definition clean_series (s : list (option string)) : list (option string) :=
  str_replace_series " Borough" ""
    (str_replace_series " Census Area" ""
       (str_replace_series " Parish" ""
          (str_replace_series " County" "" s))).

Definition filter_data (df : Frame Raw.row) : Frame Out.row :=
  let df_filtered := project (select_rows df) in
  let df_filtered :=
    setitem_region_name df_filtered
      (clean_series (column Proj.region_name df_filtered)) in
  rename df_filtered.

(** *** Row-wise reading of the pipeline *)

Definition is_text (v : string) (c : option string) : bool :=
  match c with Some t => String.eqb t v | None => false end.

Definition at_period (m : option string) (d : string) : bool :=
  match m with Some x => String.eqb d x | None => false end.

Definition keep (m : option string) (r : Raw.row) : bool :=
  is_text "county" (Raw.region_type r)
  && is_text "12 weeks" (Raw.duration r)
  && notna (Raw.median_sale_price r)
  && at_period m (Raw.period_end r).

Definition clean_name (s : string) : string :=
  str_replace " Borough" ""
    (str_replace " Census Area" ""
       (str_replace " Parish" ""
          (str_replace " County" "" s))).

Definition out_row (r : Raw.row) : Out.row :=
  Out.mk (option_map clean_name (Raw.region_name r))
         (Raw.median_sale_price r).

(** The cleaning the written specification describes: first occurrence
    only of each substring. *)
Definition clean_name_first (s : string) : string :=
  replace_first " Borough" ""
    (replace_first " Census Area" ""
       (replace_first " Parish" ""
          (replace_first " County" "" s))).




(** The written specification's cleaning, as a property of a run. *)
Definition first_occurrence_cleaning (df : Frame Raw.row) : Prop :=
  forall i o, (i, o) ∈ filter_data df ->
    exists r, (i, r) ∈ df /\ keep (max_dt df) r = true /\
      Out.county o = option_map clean_name_first (Raw.region_name r).


(** A table that is already what the transformer keeps. *)
Definition post_conditions (T : Frame Raw.row) : Prop :=
  forall i r, (i, r) ∈ T ->
    Raw.region_type r = Some "county" /\
    Raw.duration r = Some "12 weeks" /\
    (exists p, Raw.median_sale_price r = Some p) /\
    max_dt T = Some (Raw.period_end r).

(** A row that one of the three row conditions rejects. *)
Definition rejected (r : Raw.row) : Prop :=
  Raw.region_type r <> Some "county" \/
  Raw.duration r <> Some "12 weeks" \/
  Raw.median_sale_price r = None.

Definition one_row (name : string) : Frame Raw.row :=
  range_index
    [ Raw.mk "2021-01-08" (Some "county") (Some name)
             (Some "12 weeks") (Some 410000%Q) ].

(** Two rows that already are what the transformer keeps. *)
Definition settled : Frame Raw.row :=
  [ (1, Raw.mk "2021-01-08" (Some "county") (Some "Los Angeles County")
               (Some "12 weeks") (Some 800000%Q));
    (5, Raw.mk "2021-01-08" (Some "county") (Some "Bethel Census Area")
               (Some "12 weeks") (Some 250000%Q)) ].

(** Sample rows. *)
Definition sample : Frame Raw.row :=
  range_index
    [ Raw.mk "2021-01-01" (Some "county") (Some "Los Angeles County")
             (Some "12 weeks") (Some 700000%Q);
      Raw.mk "2021-01-08" (Some "county") (Some "Los Angeles County")
             (Some "12 weeks") (Some 800000%Q);
      Raw.mk "2021-01-08" (Some "metro") (Some "Boston, MA metro area")
             (Some "12 weeks") (Some 500000%Q);
      Raw.mk "2021-01-08" (Some "county") (Some "Orleans Parish")
             (Some "12 weeks") None;
      Raw.mk "2021-01-08" (Some "county") (Some "Kenai Peninsula Borough")
             (Some "4 weeks") (Some 300000%Q);
      Raw.mk "2021-01-08" (Some "county") (Some "Bethel Census Area")
             (Some "12 weeks") (Some 250000%Q) ].

End Transformer.

(** ** The transformer on a store of frame objects

  [filter_data] receives a reference to a DataFrame object.  Every pandas
  call in its body that returns a frame ([.loc[mask]], [.dropna],
  [.query], [[[...]]], [.rename]) builds a new object; the one in-place
  update is the column assignment on [df_filtered]. *)
Module Store.
Import Transformer.

Inductive obj :=
| RawFrame (df : Frame Raw.row)
| ProjFrame (df : Frame Proj.row)
| OutFrame (df : Frame Out.row).

Abbreviation heap := (gmap nat obj).

(** State with failure ([None]: the reference is dangling or holds a
    frame of another shape). *)
Definition S (A : Type) : Type := heap -> option (A * heap).

#[global] Instance S_ret : MRet S := fun A x h => Some (x, h).
#[global] Instance S_bind : MBind S := fun A B f m h =>
  match m h with
  | Some (x, h') => f x h'
  | None => None
  end.

Definition alloc (o : obj) : S nat := fun h =>
  let l := fresh (dom h) in Some (l, <[l := o]> h).

Definition get_raw (l : nat) : S (Frame Raw.row) := fun h =>
  match h !! l with Some (RawFrame df) => Some (df, h) | _ => None end.

Definition get_proj (l : nat) : S (Frame Proj.row) := fun h =>
  match h !! l with Some (ProjFrame df) => Some (df, h) | _ => None end.

Definition put (l : nat) (o : obj) : S unit := fun h =>
  Some (tt, <[l := o]> h).

Definition filter_data (df : nat) : S nat :=
  d ← get_raw df;
  let max_dt := series_max (column Raw.period_end d) in
  t1 ← alloc (RawFrame
                (loc d (mask_and
                          (series_eq (column Raw.region_type d) "county")
                          (series_eq (column Raw.duration d) "12 weeks"))));
  d1 ← get_raw t1;
  t2 ← alloc (RawFrame (dropna_median_sale_price d1));
  d2 ← get_raw t2;
  t3 ← alloc (RawFrame (query_period_end max_dt d2));
  d3 ← get_raw t3;
  df_filtered ← alloc (ProjFrame (project d3));
  p ← get_proj df_filtered;
  let cleaned := clean_series (column Proj.region_name p) in
  p' ← get_proj df_filtered;
  put df_filtered (ProjFrame (setitem_region_name p' cleaned));;
  p'' ← get_proj df_filtered;
  alloc (OutFrame (rename p'')).

(** Every object of [h] is still in [h'], unchanged. *)
Definition preserves (h h' : heap) : Prop :=
  forall k, k ∈ dom h -> h' !! k = h !! k.

End Store.

(** ** Fetcher: [fetch_data] and its [main] *)

Module Fetcher.

(** What [requests] hands back once redirects have been followed. *)
Record Response := mkResponse {
  status_code : Z;
  reason : string;
  url : string;
  content : list Byte.byte
}.

Inductive exn :=
| HTTPError (msg : string)
| RequestException (msg : string)
| OSError (msg : string)
| SystemExit (arg : exn).

(** The calls that reach outside the process.  [Get u] is one call of
    [requests.get]; the redirect hops it follows happen inside it. *)
Inductive event :=
| Get (u : string)
| Open (path : string)
| Write (path : string) (data : list Byte.byte)
| Close (path : string)
| Print (line : string).

Record World := mkWorld {
  files : gmap string (list Byte.byte);
  trace : list event
}.

(** What the operating system answers to the two file calls: [open] of a
    path for writing may be refused (no such directory, no permission),
    and a [write] may break off after some bytes (disk full). *)
Record Disk := mkDisk {
  open_refused : string -> option string;
  write_refused : string -> list Byte.byte -> option (nat * string)
}.

Definition permissive : Disk := mkDisk (fun _ => None) (fun _ _ => None).

(** Computations that act on the world and either return or raise. *)
Definition M (A : Type) : Type := World -> (exn + A) * World.

#[global] Instance M_ret : MRet M := fun A x w => (inr x, w).
#[global] Instance M_bind : MBind M := fun A B f m w =>
  match m w with
  | (inr x, w') => f x w'
  | (inl e, w') => (inl e, w')
  end.

Definition raise {A} (e : exn) : M A := fun w => (inl e, w).

(** [try: body except <class> as err: handler err]; [handler] is [None]
    on the exceptions the clause does not name. *)
Definition try_except {A} (body : M A) (handler : exn -> option (M A))
  : M A := fun w =>
  match body w with
  | (inr x, w') => (inr x, w')
  | (inl e, w') =>
      match handler e with
      | Some h => h w'
      | None => (inl e, w')
      end
  end.

Definition emit (e : event) : M unit := fun w =>
  (inr tt, mkWorld (files w) (trace w ++ [e])).

Section Network.
(** The remote side: a response, or an exception from [requests.get]
    itself (no connection, timeout, too many redirects). *)
Variable net : string -> exn + Response.
Variable disk : Disk.

Definition requests_get (u : string) : M Response := fun w =>
  (net u, mkWorld (files w) (trace w ++ [Get u])).

(** [Response.raise_for_status] of the requests library. *)
Definition http_error_msg (r : Response) : string :=
  if decide (400 <= status_code r < 500)%Z
  then pretty (status_code r) +:+ " Client Error: " +:+ reason r
       +:+ " for url: " +:+ url r
  else if decide (500 <= status_code r < 600)%Z
  then pretty (status_code r) +:+ " Server Error: " +:+ reason r
       +:+ " for url: " +:+ url r
  else "".

Definition raise_for_status (r : Response) : M unit :=
  if decide (http_error_msg r = "") then mret tt
  else raise (HTTPError (http_error_msg r)).

(** [open(filepath, "wb")] creates or truncates the file, unless the
    system refuses: then nothing is created or truncated. *)
Definition open_wb (path : string) : M unit := fun w =>
  match open_refused disk path with
  | Some msg => (inl (OSError msg), mkWorld (files w) (trace w ++ [Open path]))
  | None =>
      (inr tt, mkWorld (<[path := []]> (files w)) (trace w ++ [Open path]))
  end.

(** [f.write(data)]: all of [data] is appended, or the bytes that went
    through before the system broke the write off. *)
Definition write (path : string) (data : list Byte.byte) : M unit :=
  fun w =>
  match write_refused disk path data with
  | Some (n, msg) =>
      (inl (OSError msg),
       mkWorld (<[path := (default [] (files w !! path) ++ take n data)%list]>
                  (files w))
               (trace w ++ [Write path data]))
  | None =>
      (inr tt,
       mkWorld (<[path := (default [] (files w !! path) ++ data)%list]>
                  (files w))
               (trace w ++ [Write path data]))
  end.

(** The file is closed when the body of a [with] ends, also when it ends
    by raising. *)
Definition closing {A} (path : string) (body : M A) : M A := fun w =>
  let (res, w') := body w in
  (res, mkWorld (files w') (trace w' ++ [Close path])).

(** [with open(path, "wb") as f: body]. *)
Definition with_open_wb {A} (path : string) (body : M A) : M A :=
  open_wb path;; closing path body.

Definition fetch_data (u filepath : string) : M unit :=
  try_except
    (r ← requests_get u;
     raise_for_status r;;
     with_open_wb filepath (write filepath (content r)))
    (fun err =>
       match err with
       | HTTPError _ => Some (raise (SystemExit err))
       | _ => None
       end).

Definition raw_path : string := "../data/redfin_raw.csv".

Definition source_url : string :=
  "https://redfin-public-data.s3.us-west-2.amazonaws.com/redfin_covid19/weekly_housing_market_data_most_recent.tsv000".

(** [sys.path.append] changes the interpreter's module search path only;
    the prints are kept as events. *)
Definition main : M unit :=
  emit (Print "Added current directory to system path.");;
  emit (Print ("File will be saved to: " +:+ raw_path));;
  emit (Print ("Fetching data from: " +:+ source_url));;
  fetch_data source_url raw_path;;
  emit (Print "Data fetch completed successfully.").
End Network.

(** Is the status one that [raise_for_status] treats as an error? *)
Definition error_status (r : Response) : Prop :=
  (400 <= status_code r < 600)%Z.

(** The URLs [requests.get] was called with, in order. *)
Definition requests_made (t : list event) : list string :=
  flat_map (fun e => match e with Get u => [u] | _ => [] end) t.

(** The written specification's reading: the call fails exactly on a
    status that is not 2xx. *)
Definition fatal_iff_non_2xx (net : string -> exn + Response) (disk : Disk)
    (u filepath : string) (w : World) (r : Response) : Prop :=
  fst (fetch_data net disk u filepath w) <> inr tt <->
  ~ (200 <= status_code r < 300)%Z.

Definition not_found : Response :=
  mkResponse 404 "Not Found" source_url [].

Definition not_modified : Response :=
  mkResponse 304 "Not Modified" source_url [].

Definition served (body : list Byte.byte) : Response :=
  mkResponse 200 "OK" source_url body.

(** A system without the [../data] directory. *)
Definition no_data_dir : Disk :=
  mkDisk (fun _ => Some "[Errno 2] No such file or directory")
         (fun _ _ => None).

(** A system whose disk fills up after the first byte. *)
Definition disk_full : Disk :=
  mkDisk (fun _ => None)
         (fun _ _ => Some (1, "[Errno 28] No space left on device")).

End Fetcher.

(** ** The transformer on a DataFrame with its labels and dtypes

  [Transformer.filter_data] computes the values.  A DataFrame also carries
  its column labels and, per column, how the cells are stored; two calls
  of [filter_data] look at those and can raise: a lookup by label, and
  the [.str] accessor. *)
Module Typed.
Import Transformer.

(** How pandas stores the region_name column: [object] when it holds text
    (cells are [str] or NaN; also what [read_csv] gives a file without
    rows), a number type when [read_csv] found no text in it. *)
Inductive dtype := object | float64 | int64.

(** The labels, the storage of region_name, and the rows.  When a label is
    absent the row field of that name stands for nothing: the lookup
    raises before any cell is read. *)
Record DataFrame := mk {
  columns : list string;
  region_name_dtype : dtype;
  frame : Frame Raw.row
}.

Record Cleaned := mkCleaned {
  out_columns : list string;
  out_frame : Frame Out.row
}.

Inductive error :=
| KeyError (label : string)
| AttributeError (msg : string).

Definition E (A : Type) : Type := (error + A)%type.

#[global] Instance E_ret : MRet E := fun A x => inr x.
#[global] Instance E_bind : MBind E := fun A B f m =>
  match m with
  | inr x => f x
  | inl e => inl e
  end.

(** [usecols] of [load_redfin_data]. *)
Definition usecols : list string :=
  ["period_end"; "region_type"; "region_name"; "duration";
   "median_sale_price"].


(** [df[label]], [subset=[label]]: the label must be a column. *)
Definition getitem (labels : list string) (label : string) : E unit :=
  if decide (label ∈ labels) then inr tt else inl (KeyError label).

(** [df[[l1, l2, ...]]]: the labels asked for, in the order asked. *)
Fixpoint getitem_list (labels want : list string) : E (list string) :=
  match want with
  | [] => inr []
  | l :: want' =>
      if decide (l ∈ labels)
      then match getitem_list labels want' with
           | inr ls => inr (l :: ls)
           | inl e => inl e
           end
      else inl (KeyError l)
  end.

(** [rename(columns=mapping)]: labels outside the mapping stay. *)
Definition rename_columns (mapping : list (string * string))
    (labels : list string) : list string :=
  map (fun c => match List.find (fun kv => String.eqb (fst kv) c) mapping with
                | Some kv => snd kv
                | None => c
                end) labels.

(** [series.str]: refused on a column that is not stored as text, whatever
    rows are left in it. *)
Definition str_accessor (dt : dtype) : E unit :=
  match dt with
  | object => inr tt
  | _ => inl (AttributeError "Can only use .str accessor with string values!")
  end.

Definition filter_data (df : DataFrame) : E Cleaned :=
  getitem (columns df) "period_end";;
  getitem (columns df) "region_type";;
  getitem (columns df) "duration";;
  getitem (columns df) "median_sale_price";;
  labels ← getitem_list (columns df) ["region_name"; "median_sale_price"];
  let df_filtered := project (select_rows (frame df)) in
  str_accessor (region_name_dtype df);;
  let df_filtered :=
    setitem_region_name df_filtered
      (clean_series (column Proj.region_name df_filtered)) in
  mret (mkCleaned (rename_columns [("region_name", "county")] labels)
                  (rename df_filtered)).

(** A source row that matches: county-level, 12-week, priced, and no row
    of the table has a later period_end. *)
Definition matching (df : Frame Raw.row) (r : Raw.row) : bool :=
  is_text "county" (Raw.region_type r)
  && is_text "12 weeks" (Raw.duration r)
  && notna (Raw.median_sale_price r)
  && forallb (fun y => String.leb (Raw.period_end (snd y)) (Raw.period_end r))
             df.



Definition sample_df : DataFrame := mk usecols object sample.




End Typed.

(** ** The transform stage: [load_redfin_data] and its [main] *)

Module Clean.
Import Transformer.

(** What can end the stage: the raw file is not there, [read_csv]
    rejects its content (a required column is absent, the text is
    malformed), [filter_data] raises, or the system refuses the write. *)
Inductive failure :=
| FileNotFoundError (path : string)
| ValueError (msg : string)
| Raised (e : Typed.error)
| OSError (msg : string).

(** Computations on the fetcher's world of files and events. *)
Definition T (A : Type) : Type :=
  Fetcher.World -> (failure + A) * Fetcher.World.

#[global] Instance T_ret : MRet T := fun A x w => (inr x, w).
#[global] Instance T_bind : MBind T := fun A B f m w =>
  match m w with
  | (inr x, w') => f x w'
  | (inl e, w') => (inl e, w')
  end.

Definition print (line : string) : T unit := fun w =>
  (inr tt, Fetcher.mkWorld (Fetcher.files w)
                           (Fetcher.trace w ++ [Fetcher.Print line])).

Section Csv.
Variable disk : Fetcher.Disk.
(** What [pd.read_csv(..., sep='\t', usecols=[...])] parses from the bytes
    of a file (the rows and how it stores region_name), and the text
    [DataFrame.to_csv(..., index=False)] produces: both belong to pandas
    and are taken as given. *)
Variable read_csv : list Byte.byte -> string + (Typed.dtype * list Raw.row).
Variable to_csv : Typed.Cleaned -> list Byte.byte.

Definition load_redfin_data (filepath : string) : T Typed.DataFrame :=
  fun w =>
  match Fetcher.files w !! filepath with
  | None => (inl (FileNotFoundError filepath), w)
  | Some data =>
      match read_csv data with
      | inl msg => (inl (ValueError msg), w)
      | inr (dt, rows) =>
          (inr (Typed.mk Typed.usecols dt (range_index rows)), w)
      end
  end.

(** [df.pipe(filter_data)]. *)
Definition pipe_filter_data (df : Typed.DataFrame) : T Typed.Cleaned := fun w =>
  match Typed.filter_data df with
  | inl e => (inl (Raised e), w)
  | inr res => (inr res, w)
  end.

(** [df.to_csv(path, index=False)]: the file is created or replaced, unless
    the system refuses the open or breaks the write off. *)
Definition save (path : string) (df : Typed.Cleaned) : T unit := fun w =>
  match Fetcher.open_refused disk path with
  | Some msg =>
      (inl (OSError msg),
       Fetcher.mkWorld (Fetcher.files w)
                       (Fetcher.trace w ++ [Fetcher.Open path]))
  | None =>
      match Fetcher.write_refused disk path (to_csv df) with
      | Some (n, msg) =>
          (inl (OSError msg),
           Fetcher.mkWorld (<[path := take n (to_csv df)]> (Fetcher.files w))
             (Fetcher.trace w ++ [Fetcher.Open path;
                                  Fetcher.Write path (to_csv df);
                                  Fetcher.Close path]))
      | None =>
          (inr tt,
           Fetcher.mkWorld (<[path := to_csv df]> (Fetcher.files w))
             (Fetcher.trace w ++ [Fetcher.Open path;
                                  Fetcher.Write path (to_csv df);
                                  Fetcher.Close path]))
      end
  end.

Definition input_path : string := "../data/redfin_raw.csv".
Definition output_path : string := "../data/redfin_clean.csv".

Definition main : T unit :=
  print "Added current directory to system path.";;
  print ("Input file path: " +:+ input_path);;
  print ("Output file path: " +:+ output_path);;
  print "Loading Redfin data...";;
  df ← load_redfin_data input_path;
  print "Data loaded successfully.";;
  print "Filtering and cleaning data...";;
  df_filtered ← pipe_filter_data df;
  print "Data filtering complete.";;
  print ("Saving cleaned data to " +:+ output_path +:+ "...");;
  save output_path df_filtered;;
  print "File saved successfully.".
End Csv.

(** The lines printed before the raw file is read. *)
Definition preamble : list Fetcher.event :=
  [ Fetcher.Print "Added current directory to system path.";
    Fetcher.Print "Input file path: ../data/redfin_raw.csv";
    Fetcher.Print "Output file path: ../data/redfin_clean.csv";
    Fetcher.Print "Loading Redfin data..." ].

(** The two lines between the load and the call of [filter_data]. *)
Definition loaded : list Fetcher.event :=
  [ Fetcher.Print "Data loaded successfully.";
    Fetcher.Print "Filtering and cleaning data..." ].

(** The two lines between [filter_data] and the write. *)
Definition saving : list Fetcher.event :=
  [ Fetcher.Print "Data filtering complete.";
    Fetcher.Print "Saving cleaned data to ../data/redfin_clean.csv..." ].

(** The rows of a table that carry its greatest period_end. *)
Definition latest_rows (df : Frame Raw.row) : Frame Raw.row :=
  List.filter (fun x => at_period (max_dt df) (Raw.period_end (snd x))) df.

(** County rows of an earlier week under a metro row of the latest. *)
Definition stale : Frame Raw.row :=
  range_index
    [ Raw.mk "2021-01-01" (Some "county") (Some "Los Angeles County")
             (Some "12 weeks") (Some 700000%Q);
      Raw.mk "2021-01-08" (Some "metro") (Some "Boston, MA metro area")
             (Some "12 weeks") (Some 500000%Q) ].

(** A stand-in for the parser: the one-line file "A" holds the sample
    rows, region_name stored as text; anything else is malformed. *)
Definition read_sample (data : list Byte.byte)
  : string + (Typed.dtype * list Raw.row) :=
  match data with
  | [Byte.x41] => inr (Typed.object, map snd sample)
  | _ => inl "Error tokenizing data"
  end.


(** A stand-in for the writer: the header line, then one line per row
    with its county. *)
Definition write_counties (df : Typed.Cleaned) : list Byte.byte :=
  String.list_byte_of_string
    (String.concat "," (Typed.out_columns df) +:+ String (Ascii.ascii_of_nat 10)
       (String.concat (String (Ascii.ascii_of_nat 10) "")
          (map (fun x => default "" (Out.county (snd x)))
               (Typed.out_frame df)))).

End Clean.

(** * Properties *)

(** ** Scanning text *)

Section TextFacts.
Import Text.

Lemma prefix_nil_l s : String.prefix "" s = true.
Proof. by destruct s. Qed.

Lemma prefix_app old t : String.prefix old (old +:+ t) = true.
Proof.
  induction old as [|c old IH]; simpl; [apply prefix_nil_l|].
  destruct (Ascii.ascii_dec c c); [exact IH | congruence].
Qed.


Lemma str_replace_nil old new : str_replace old new "" = "".
Proof. done. Qed.


(** No match at the front: the character is kept. *)
Lemma str_replace_miss old new c s :
  String.prefix old (String c s) = false ->
  str_replace old new (String c s) = String c (str_replace old new s).
Proof. intros H. unfold str_replace. cbn [replace_go]. by rewrite H. Qed.

Lemma replace_first_hit old new t :
  old <> "" ->
  replace_first old new (old +:+ t) = new +:+ t.
Proof.
  intros Hne. destruct old as [|c old]; [done|].
  change (String c old +:+ t) with (String c (old +:+ t)).
  cbn [replace_first].
  change (String c (old +:+ t)) with (String c old +:+ t).
  rewrite prefix_app. f_equal.
  generalize (String c old). intros m.
  induction m as [|d m IH]; simpl; [by destruct t|exact IH].
Qed.

Lemma replace_first_miss old new c s :
  String.prefix old (String c s) = false ->
  replace_first old new (String c s) = String c (replace_first old new s).
Proof. intros H. cbn [replace_first]. by rewrite H. Qed.

Lemma contains_cons_false old c s :
  contains old (String c s) = false ->
  String.prefix old (String c s) = false /\ contains old s = false.
Proof. cbn [contains]. by intros [? ?]%orb_false_elim. Qed.

(** Text without any occurrence is left as it is. *)
Lemma str_replace_absent old new s :
  contains old s = false -> str_replace old new s = s.
Proof.
  induction s as [|c s IH]; intros H; [done|].
  apply contains_cons_false in H as [Hp Hc].
  by rewrite str_replace_miss, IH.
Qed.

Lemma replace_first_absent old new s :
  contains old s = false -> replace_first old new s = s.
Proof.
  induction s as [|c s IH]; intros H; [done|].
  apply contains_cons_false in H as [Hp Hc].
  by rewrite replace_first_miss, IH.
Qed.







End TextFacts.

(** ** The order on [period_end] *)

Section TextOrder.

(** stdpp's [String.le] is [String.leb] read as a proposition, and comes
    with its order instances. *)
Lemma string_leb_refl s : String.leb s s = true.
Proof. apply Is_true_true. exact (reflexivity (R:=String.le) s). Qed.

Lemma string_leb_trans s1 s2 s3 :
  String.leb s1 s2 = true -> String.leb s2 s3 = true ->
  String.leb s1 s3 = true.
Proof.
  intros H12%Is_true_true H23%Is_true_true. apply Is_true_true.
  exact (transitivity (R:=String.le) H12 H23).
Qed.

End TextOrder.

(** ** Frames *)

Section FrameFacts.
Import Transformer.

Lemma str_max_cases a b :
  (str_max a b = a /\ String.leb b a = true) \/
  (str_max a b = b /\ String.leb a b = true).
Proof.
  unfold str_max. destruct (String.leb a b) eqn:H; [by right|left].
  split; [done|]. by destruct (String.leb_total a b) as [H'|H']; [congruence|].
Qed.

Lemma foldl_str_max_spec t : forall x,
  (foldl str_max x t = x \/ foldl str_max x t ∈ t) /\
  String.leb x (foldl str_max x t) = true /\
  (forall d, d ∈ t -> String.leb d (foldl str_max x t) = true).
Proof.
  induction t as [|y t IH]; intros x; simpl.
  - split; [by left|]. split; [apply string_leb_refl|].
    intros d Hd. by apply elem_of_nil in Hd.
  - destruct (IH (str_max x y)) as (Hin & Hle & Hub).
    destruct (str_max_cases x y) as [[E L]|[E L]]; rewrite E in *.
    + split; [destruct Hin; [by left|right; by apply list_elem_of_further]|].
      split; [done|]. intros d [->|Hd]%elem_of_cons; [|by apply Hub].
      by apply (string_leb_trans _ x).
    + split; [right; destruct Hin as [->|Hin];
                [apply list_elem_of_here|by apply list_elem_of_further]|].
      split; [by apply (string_leb_trans _ y)|].
      intros d [->|Hd]%elem_of_cons; [done|by apply Hub].
Qed.

(** [Series.max] returns an entry of the series that bounds all of them. *)
Lemma series_max_spec s m :
  series_max s = Some m ->
  m ∈ s /\ forall d, d ∈ s -> String.leb d m = true.
Proof.
  destruct s as [|x t]; [done|]. simpl. intros [= <-].
  destruct (foldl_str_max_spec t x) as (Hin & Hle & Hub). split.
  - destruct Hin as [->|Hin];
      [apply list_elem_of_here|by apply list_elem_of_further].
  - intros d [->|Hd]%elem_of_cons; [done|by apply Hub].
Qed.

Lemma series_max_None s : series_max s = None <-> s = [].
Proof. by destruct s. Qed.

Lemma series_max_const s m :
  s <> [] -> (forall d, d ∈ s -> d = m) -> series_max s = Some m.
Proof.
  intros Hne Hall. destruct (series_max s) as [m'|] eqn:E.
  - apply series_max_spec in E as [Hin _]. by rewrite (Hall _ Hin).
  - by apply series_max_None in E.
Qed.

(** An entry that bounds the series is its maximum. *)
Lemma series_max_unique s m :
  m ∈ s -> (forall d, d ∈ s -> String.leb d m = true) ->
  series_max s = Some m.
Proof.
  intros Hin Hub. destruct (series_max s) as [m'|] eqn:E.
  - apply series_max_spec in E as [Hin' Hub'].
    f_equal. apply String.leb_antisym; auto.
  - apply series_max_None in E. subst s. by apply elem_of_nil in Hin.
Qed.

Lemma loc_map {R} (f : R -> bool) (df : Frame R) :
  loc df (map (fun x => f (snd x)) df) = List.filter (fun x => f (snd x)) df.
Proof.
  induction df as [|x df IH]; [done|]. simpl. rewrite IH.
  by destruct (f (snd x)).
Qed.

Lemma mask_and_map {R} (f g : R -> bool) (df : Frame R) :
  mask_and (map (fun x => f (snd x)) df) (map (fun x => g (snd x)) df)
  = map (fun x => (fun r => f r && g r) (snd x)) df.
Proof.
  unfold mask_and. induction df as [|x df IH]; [done|]. simpl.
  by rewrite IH.
Qed.

Lemma filter_filter {A} (f g : A -> bool) (l : list A) :
  List.filter g (List.filter f l) = List.filter (fun x => f x && g x) l.
Proof.
  induction l as [|x l IH]; [done|]. simpl.
  destruct (f x); simpl; [|done]. destruct (g x); by rewrite IH.
Qed.

(** The three filters select exactly the rows that pass [keep]. *)
Lemma select_rows_keep (df : Frame Raw.row) :
  select_rows df = List.filter (fun x => keep (max_dt df) (snd x)) df.
Proof.
  unfold select_rows, query_period_end, dropna_median_sale_price,
    series_eq, column.
  rewrite !map_map.
  rewrite (mask_and_map (fun r => is_text "county" (Raw.region_type r))
                        (fun r => is_text "12 weeks" (Raw.duration r))).
  rewrite (loc_map (fun r => is_text "county" (Raw.region_type r)
                             && is_text "12 weeks" (Raw.duration r))).
  rewrite (loc_map (fun r => notna (Raw.median_sale_price r))).
  rewrite (loc_map (fun r => at_period (max_dt df) (Raw.period_end r))).
  rewrite !filter_filter. apply List.filter_ext.
  intros x. unfold keep. by rewrite !andb_assoc.
Qed.

Lemma clean_series_map (s : list (option string)) :
  clean_series s = map (option_map clean_name) s.
Proof.
  unfold clean_series, str_replace_series. rewrite !map_map.
  apply map_ext. by intros [x|].
Qed.

(** Each selected row yields one output row, in place. *)
Lemma filter_data_rows (df : Frame Raw.row) :
  filter_data df = map (fun x => (fst x, out_row (snd x))) (select_rows df).
Proof.
  unfold filter_data. rewrite clean_series_map.
  generalize (select_rows df). intros l.
  induction l as [|x l IH]; [done|].
  simpl in *. by rewrite IH.
Qed.

End FrameFacts.

(** ** The transformer, row by row *)

Section TransformerFacts.
Import Transformer.

Lemma elem_of_select_rows (df : Frame Raw.row) i r :
  (i, r) ∈ select_rows df <-> (i, r) ∈ df /\ keep (max_dt df) r = true.
Proof.
  rewrite select_rows_keep, !list_elem_of_In, List.filter_In. done.
Qed.

Lemma elem_of_filter_data (df : Frame Raw.row) i o :
  (i, o) ∈ filter_data df <->
  exists r, (i, r) ∈ df /\ keep (max_dt df) r = true /\ o = out_row r.
Proof.
  rewrite filter_data_rows. change map with (@fmap list _). 
  rewrite list_elem_of_fmap. split.
  - intros [[j r] [[= -> ->] Hin]]. exists r.
    apply elem_of_select_rows in Hin as [? ?]. done.
  - intros (r & Hin & Hk & ->). exists (i, r). split; [done|].
    by apply elem_of_select_rows.
Qed.

Lemma keep_fields m r :
  keep m r = true <->
  Raw.region_type r = Some "county" /\
  Raw.duration r = Some "12 weeks" /\
  (exists p, Raw.median_sale_price r = Some p) /\
  m = Some (Raw.period_end r).
Proof.
  unfold keep, is_text, at_period, notna.
  rewrite !andb_true_iff. split.
  - intros [[[H1 H2] H3] H4].
    destruct (Raw.region_type r) as [t|]; [|done].
    destruct (Raw.duration r) as [d|]; [|done].
    destruct (Raw.median_sale_price r) as [p|]; [|done].
    destruct m as [x|]; [|done].
    apply String.eqb_eq in H1 as ->. apply String.eqb_eq in H2 as ->.
    apply String.eqb_eq in H4 as ->. eauto.
  - intros (-> & -> & [p ->] & ->). by rewrite !String.eqb_refl.
Qed.

End TransformerFacts.

(** ** Labels, storage and the values *)

Section TypedFacts.
Import Transformer Typed.

Lemma getitem_inr labels l : getitem labels l = inr tt <-> l ∈ labels.
Proof. unfold getitem. case_decide; split; try done. Qed.



(** A run that returns had the labels it looks up and a text column. *)
Lemma typed_filter_data_inr (df : DataFrame) res :
  filter_data df = inr res ->
  region_name_dtype df = object /\
  res = mkCleaned ["county"; "median_sale_price"]
                  (Transformer.filter_data (frame df)).
Proof.
  unfold filter_data, mbind, E_bind, getitem. cbn [getitem_list].
  repeat (case_decide; [|discriminate]).
  destruct (region_name_dtype df); cbn; [|discriminate..].
  intros [= <-]. done.
Qed.


(** On a row of the table, being at [max_dt] is having no later row. *)
Lemma keep_matching (df : Frame Raw.row) i r :
  (i, r) ∈ df -> keep (max_dt df) r = matching df r.
Proof.
  intros Hin. unfold keep, matching. f_equal.
  apply eq_true_iff_eq. rewrite List.forallb_forall. split.
  - intros H [j r'] Hj%list_elem_of_In. simpl.
    destruct (max_dt df) as [m|] eqn:E; [|done]. simpl in H.
    apply String.eqb_eq in H as ->.
    apply series_max_spec in E as [_ Hub]. apply Hub.
    unfold column. change map with (@fmap list _).
    apply list_elem_of_fmap. by exists (j, r').
  - intros H.
    assert (E : max_dt df = Some (Raw.period_end r)).
    { apply series_max_unique.
      - unfold column. change map with (@fmap list _).
        apply list_elem_of_fmap. by exists (i, r).
      - intros d Hd. unfold column in Hd.
        change map with (@fmap list _) in Hd.
        apply list_elem_of_fmap in Hd as ([j r'] & -> & Hj).
        apply list_elem_of_In in Hj. exact (H _ Hj). }
    rewrite E. simpl. apply String.eqb_refl.
Qed.


End TypedFacts.

(** ** Claims about the transformer *)

Section TransformerClaims.
Import Text Transformer.

(** C1, as written, fails: with the name "Lake County County" the code
    removes both occurrences of " County" and yields "Lake", where a
    first-occurrence-only cleaning yields "Lake County". *)
Lemma first_occurrence_cleaning_refuted :
  ~ first_occurrence_cleaning (one_row "Lake County County").
Proof.
  intros H.
  destruct (H 0 (Out.mk (Some "Lake") (Some 410000%Q))) as (r & Hin & _ & Hc).
  - vm_compute. apply list_elem_of_here.
  - apply list_elem_of_singleton in Hin. injection Hin as ->.
    vm_compute in Hc. discriminate.
Qed.

(** C3: on a table with rows [max_dt] exists and is the greatest
    period_end of the whole input table (an entry of the column that
    bounds every entry, kept or not), every output row comes
    from a source row whose period_end is that maximum, and so any two
    contributing source rows have the same period_end. *)
Theorem output_rows_at_max_period_end (df : Frame Raw.row) :
  (df <> [] -> exists m, max_dt df = Some m) /\
  (forall m, max_dt df = Some m ->
     (exists i r, (i, r) ∈ df /\ Raw.period_end r = m) /\
     (forall i r, (i, r) ∈ df -> String.leb (Raw.period_end r) m = true)) /\
  (forall i o, (i, o) ∈ filter_data df ->
     exists r, (i, r) ∈ df /\ max_dt df = Some (Raw.period_end r) /\
               o = out_row r) /\
  (forall i r i' r', (i, r) ∈ select_rows df -> (i', r') ∈ select_rows df ->
     Raw.period_end r = Raw.period_end r').
Proof.
  split; [|split; [|split]].
  - intros Hne. destruct df as [|x l]; [done|]. by eexists.
  - intros m Hm. apply series_max_spec in Hm as [Hin Hub]. split.
    + unfold column in Hin. change map with (@fmap list _) in Hin.
      apply list_elem_of_fmap in Hin as ([i r] & -> & Hin). by exists i, r.
    + intros i r Hir. apply Hub. unfold column.
      change map with (@fmap list _).
      apply list_elem_of_fmap. by exists (i, r).
  - intros i o (r & Hin & Hk & ->)%elem_of_filter_data. exists r.
    apply keep_fields in Hk as (_ & _ & _ & ->). done.
  - intros i r i' r' [_ H]%elem_of_select_rows [_ H']%elem_of_select_rows.
    apply keep_fields in H as (_ & _ & _ & E).
    apply keep_fields in H' as (_ & _ & _ & E'). congruence.
Qed.










Lemma filter_all {A} (f : A -> bool) (l : list A) :
  (forall x, x ∈ l -> f x = true) -> List.filter f l = l.
Proof.
  induction l as [|x l IH]; intros H; [done|]. simpl.
  rewrite (H x) by apply list_elem_of_here.
  f_equal. apply IH. intros y Hy. by apply H, list_elem_of_further.
Qed.

Lemma rejected_not_kept m r : rejected r -> keep m r = false.
Proof.
  intros H. destruct (keep m r) eqn:E; [|done].
  apply keep_fields in E as (H1 & H2 & [p H3] & _).
  destruct H as [H|[H|H]]; congruence.
Qed.

(** C4: an output row always comes from a source row with region_type
    "county", duration "12 weeks" and a price that is present, which it
    carries over; a row that fails one of the three conditions adds
    nothing to the output; so no output price is missing. *)
Theorem only_priced_12_week_county_rows (df : Frame Raw.row) :
  (forall i o, (i, o) ∈ filter_data df ->
     exists r, (i, r) ∈ df /\
       Raw.region_type r = Some "county" /\
       Raw.duration r = Some "12 weeks" /\
       exists p, Raw.median_sale_price r = Some p /\
                 Out.median_sale_price o = Some p) /\
  (forall l1 i r l2, df = (l1 ++ (i, r) :: l2)%list -> rejected r ->
     filter_data df =
     map (fun x => (fst x, out_row (snd x)))
         (List.filter (fun x => keep (max_dt df) (snd x)) (l1 ++ l2)%list)) /\
  (forall i o, (i, o) ∈ filter_data df -> Out.median_sale_price o <> None).
Proof.
  assert (Hsrc : forall i o, (i, o) ∈ filter_data df ->
     exists r, (i, r) ∈ df /\
       Raw.region_type r = Some "county" /\
       Raw.duration r = Some "12 weeks" /\
       exists p, Raw.median_sale_price r = Some p /\
                 Out.median_sale_price o = Some p).
  { intros i o (r & Hin & Hk & ->)%elem_of_filter_data.
    apply keep_fields in Hk as (H1 & H2 & [p H3] & _).
    exists r. repeat split; try done. by exists p. }
  split; [exact Hsrc|split].
  - intros l1 i r l2 Hdf Hrej.
    rewrite filter_data_rows, select_rows_keep.
    generalize (max_dt df). intros m. clear Hsrc. subst df.
    rewrite !List.filter_app. simpl.
    by rewrite (rejected_not_kept _ _ Hrej).
  - intros i o Hin. destruct (Hsrc i o Hin) as (r & _ & _ & _ & p & _ & Hp).
    by rewrite Hp.
Qed.

Lemma select_rows_period (df : Frame Raw.row) i r :
  (i, r) ∈ select_rows df -> max_dt df = Some (Raw.period_end r).
Proof.
  intros [_ H]%elem_of_select_rows.
  by apply keep_fields in H as (_ & _ & _ & ->).
Qed.

(** Selecting again changes nothing, whatever the table. *)
Lemma select_rows_idem (df : Frame Raw.row) :
  select_rows (select_rows df) = select_rows df.
Proof.
  destruct (select_rows df) as [|[i r] l] eqn:E; [done|].
  rewrite <- E.
  assert (Hm : max_dt (select_rows df) = max_dt df).
  { assert (Hr : max_dt df = Some (Raw.period_end r)).
    { apply (select_rows_period df i). rewrite E. apply list_elem_of_here. }
    rewrite Hr. apply series_max_const.
    - rewrite E. done.
    - intros d Hd. unfold column in Hd. change map with (@fmap list _) in Hd.
      apply list_elem_of_fmap in Hd as ([j r'] & -> & Hin).
      apply select_rows_period in Hin. simpl. congruence. }
  rewrite (select_rows_keep (select_rows df)), Hm.
  rewrite select_rows_keep at 1.
  rewrite filter_filter, select_rows_keep.
  apply List.filter_ext. intros x. by destruct (keep _ _).
Qed.

Lemma filter_data_select_rows (df : Frame Raw.row) :
  filter_data (select_rows df) = filter_data df.
Proof. by rewrite !filter_data_rows, select_rows_idem. Qed.

(** C5: a table that already meets the post-conditions (every row
    county-level, 12-week, priced, at the table's greatest period_end) is
    left as it is by the row selection, and transforming the selected
    table gives what transforming the table gives. *)
Theorem refiltering_is_idempotent (T : Frame Raw.row) :
  post_conditions T ->
  select_rows T = T /\
  filter_data (select_rows T) = filter_data T.
Proof.
  intros Hpost. split; [|apply filter_data_select_rows].
  rewrite select_rows_keep. apply filter_all.
  intros [i r] Hin. simpl. apply keep_fields.
  destruct (Hpost i r Hin) as (? & ? & ? & ?). done.
Qed.

Lemma refiltering_is_idempotent_witness :
  post_conditions settled /\
  select_rows settled = settled /\
  filter_data (select_rows settled) = filter_data settled.
Proof.
  assert (H : post_conditions settled).
  { intros i r Hin. unfold settled in Hin.
    apply elem_of_cons in Hin as [Hin|Hin].
    - injection Hin as -> ->. vm_compute. eauto 10.
    - apply list_elem_of_singleton in Hin. injection Hin as -> ->.
      vm_compute. eauto 10. }
  split; [exact H|]. exact (refiltering_is_idempotent settled H).
Defined.

Lemma loc_sublist {R} (df : Frame R) mask : loc df mask `sublist_of` df.
Proof.
  revert mask; induction df as [|x df IH]; intros [|[] mask]; simpl;
    try apply sublist_nil_l.
  - by apply sublist_skip.
  - by apply sublist_cons.
Qed.

Lemma select_rows_sublist (df : Frame Raw.row) :
  select_rows df `sublist_of` df.
Proof.
  unfold select_rows, query_period_end, dropna_median_sale_price.
  etrans; [apply loc_sublist|]. etrans; apply loc_sublist.
Qed.


End TransformerClaims.

(** ** Claims about the transformer's result as a DataFrame *)

Section TypedClaims.
Import Text Transformer Typed.

(** C1 (amended): when the transformer returns, its output rows are
    exactly the matching source rows, each under its index label with its
    price and with its region_name after [.str.replace] of " County",
    " Parish", " Census Area" and " Borough", in that order, each call
    removing every occurrence (case-sensitive, anywhere in the text, not
    anchored at the end). *)
Theorem county_is_cleaned_region_name (df : DataFrame) res :
  filter_data df = inr res ->
  forall i o,
    (i, o) ∈ out_frame res <->
    exists r, (i, r) ∈ frame df /\ matching (frame df) r = true /\
      Out.county o =
        option_map
          (fun s => str_replace " Borough" ""
                      (str_replace " Census Area" ""
                         (str_replace " Parish" ""
                            (str_replace " County" "" s))))
          (Raw.region_name r) /\
      Out.median_sale_price o = Raw.median_sale_price r.
Proof.
  intros [_ ->]%typed_filter_data_inr i o. cbn [out_frame].
  rewrite elem_of_filter_data. split.
  - intros (r & Hin & Hk & ->). exists r.
    by rewrite <- (keep_matching _ i r Hin).
  - intros (r & Hin & Hk & Hc & Hp). exists r.
    rewrite (keep_matching _ i r Hin). repeat split; try done.
    destruct o as [c p]. simpl in *. by rewrite Hc, Hp.
Qed.

Lemma county_is_cleaned_region_name_witness :
  filter_data sample_df
    = inr (mkCleaned ["county"; "median_sale_price"]
             [ (1, Out.mk (Some "Los Angeles") (Some 800000%Q));
               (5, Out.mk (Some "Bethel") (Some 250000%Q)) ]) /\
  exists r, (5, r) ∈ frame sample_df /\
    matching (frame sample_df) r = true /\
    Some "Bethel" =
      option_map
        (fun s => str_replace " Borough" ""
                    (str_replace " Census Area" ""
                       (str_replace " Parish" ""
                          (str_replace " County" "" s))))
        (Raw.region_name r) /\
    Some 250000%Q = Raw.median_sale_price r.
Proof.
  assert (H : filter_data sample_df
              = inr (mkCleaned ["county"; "median_sale_price"]
                       [ (1, Out.mk (Some "Los Angeles") (Some 800000%Q));
                         (5, Out.mk (Some "Bethel") (Some 250000%Q)) ]))
    by reflexivity.
  split; [exact H|].
  apply (proj1 (county_is_cleaned_region_name sample_df _ H 5
                  (Out.mk (Some "Bethel") (Some 250000%Q)))).
  cbn [out_frame]. apply list_elem_of_further, list_elem_of_here.
Defined.







End TypedClaims.

(** ** The transformer on the store *)

Section StoreClaims.
Import Transformer.

Lemma alloc_bind {B} o (f : nat -> Store.S B) (h : gmap nat Store.obj) :
  (Store.alloc o ≫= f) h
  = f (fresh (dom h)) (<[fresh (dom h) := o]> h).
Proof. done. Qed.

Lemma put_bind {B} l o (f : unit -> Store.S B) (h : gmap nat Store.obj) :
  (Store.put l o ≫= f) h = f tt (<[l := o]> h).
Proof. done. Qed.

Lemma get_raw_bind {B} l d (f : Frame Raw.row -> Store.S B)
    (h : gmap nat Store.obj) :
  h !! l = Some (Store.RawFrame d) -> (Store.get_raw l ≫= f) h = f d h.
Proof.
  intros H. unfold mbind, Store.S_bind, Store.get_raw. by rewrite H.
Qed.

Lemma get_proj_bind {B} l d (f : Frame Proj.row -> Store.S B)
    (h : gmap nat Store.obj) :
  h !! l = Some (Store.ProjFrame d) -> (Store.get_proj l ≫= f) h = f d h.
Proof.
  intros H. unfold mbind, Store.S_bind, Store.get_proj. by rewrite H.
Qed.

Lemma preserves_alloc (h h' : gmap nat Store.obj) o :
  Store.preserves h h' ->
  Store.preserves h (<[fresh (dom h') := o]> h').
Proof.
  intros H k Hk. rewrite lookup_insert_ne; [by apply H|].
  intros <-. apply (is_fresh (dom h')).
  apply elem_of_dom. rewrite (H _ Hk). by apply elem_of_dom.
Qed.

Lemma preserves_put_new (h h' : gmap nat Store.obj) l o :
  Store.preserves h h' -> l ∉ dom h ->
  Store.preserves h (<[l := o]> h').
Proof.
  intros H Hl k Hk. rewrite lookup_insert_ne; [by apply H|].
  by intros <-.
Qed.

Lemma fresh_not_old (h h' : gmap nat Store.obj) :
  Store.preserves h h' -> fresh (dom h') ∉ dom h.
Proof.
  intros H Hk. apply (is_fresh (dom h')).
  apply elem_of_dom. rewrite (H _ Hk). by apply elem_of_dom.
Qed.

(** C9: run on a store in which [df] refers to the input table,
    [filter_data] returns a reference to a new object, not in the store
    before, that holds the result; the input table and every other object
    that was in the store hold the same rows and values as before. *)
Theorem filter_data_leaves_input_unchanged
    (h : gmap nat Store.obj) (df : nat) (d : Frame Raw.row) :
  h !! df = Some (Store.RawFrame d) ->
  exists l' h',
    Store.filter_data df h = Some (l', h') /\
    h' !! l' = Some (Store.OutFrame (filter_data d)) /\
    h' !! df = Some (Store.RawFrame d) /\
    (forall k, k ∈ dom h -> h' !! k = h !! k) /\
    l' ∉ dom h.
Proof.
  intros Hdf. unfold Store.filter_data.
  rewrite (get_raw_bind _ _ _ _ Hdf).
  rewrite alloc_bind.
  set (h1 := <[fresh (dom h) := _]> h).
  assert (P1 : Store.preserves h h1) by (apply preserves_alloc; intros k _; reflexivity).
  rewrite (get_raw_bind _ _ _ h1 (lookup_insert_eq _ _ _)).
  rewrite alloc_bind.
  set (h2 := <[fresh (dom h1) := _]> h1).
  assert (P2 : Store.preserves h h2) by by apply preserves_alloc.
  rewrite (get_raw_bind _ _ _ h2 (lookup_insert_eq _ _ _)).
  rewrite alloc_bind.
  set (h3 := <[fresh (dom h2) := _]> h2).
  assert (P3 : Store.preserves h h3) by by apply preserves_alloc.
  rewrite (get_raw_bind _ _ _ h3 (lookup_insert_eq _ _ _)).
  rewrite alloc_bind.
  set (h4 := <[fresh (dom h3) := _]> h3).
  assert (P4 : Store.preserves h h4) by by apply preserves_alloc.
  rewrite (get_proj_bind _ _ _ h4 (lookup_insert_eq _ _ _)).
  rewrite (get_proj_bind _ _ _ h4 (lookup_insert_eq _ _ _)).
  rewrite put_bind.
  set (h5 := <[fresh (dom h3) := _]> h4).
  assert (P5 : Store.preserves h h5).
  { apply preserves_put_new; [done|]. by apply fresh_not_old. }
  rewrite (get_proj_bind _ _ _ h5 (lookup_insert_eq _ _ _)).
  unfold Store.alloc. set (o := Store.OutFrame _).
  exists (fresh (dom h5)), (<[fresh (dom h5) := o]> h5).
  split; [reflexivity|].
  split; [by rewrite lookup_insert_eq|].
  assert (P6 := preserves_alloc h h5 o P5).
  split; [|split; [exact P6|by apply fresh_not_old]].
  rewrite P6; [done|]. apply elem_of_dom. by rewrite Hdf.
Qed.

Lemma filter_data_leaves_input_unchanged_witness :
  ({[ 7 := Store.RawFrame sample ]} : gmap nat Store.obj) !! 7
    = Some (Store.RawFrame sample) /\
  exists l' h',
    Store.filter_data 7 {[ 7 := Store.RawFrame sample ]} = Some (l', h') /\
    h' !! l' = Some (Store.OutFrame (filter_data sample)) /\
    h' !! 7 = Some (Store.RawFrame sample) /\
    (forall k, k ∈ dom ({[ 7 := Store.RawFrame sample ]}
                          : gmap nat Store.obj) ->
       h' !! k = ({[ 7 := Store.RawFrame sample ]}
                    : gmap nat Store.obj) !! k) /\
    l' ∉ dom ({[ 7 := Store.RawFrame sample ]} : gmap nat Store.obj).
Proof.
  split; [apply lookup_singleton_eq|].
  apply filter_data_leaves_input_unchanged. apply lookup_singleton_eq.
Defined.

End StoreClaims.

(** ** Claims about the fetcher *)

Section FetcherClaims.
Import Fetcher.
Variable net : string -> exn + Response.
Variable disk : Disk.

Lemma append_cons_nonempty s1 c s2 : s1 +:+ String c s2 <> "".
Proof. by destruct s1. Qed.

Lemma http_error_msg_nonempty r :
  http_error_msg r <> "" <-> error_status r.
Proof.
  unfold http_error_msg, error_status.
  destruct (decide (400 <= status_code r < 500)%Z) as [H4|H4].
  { split; [lia|]. intros _. apply append_cons_nonempty. }
  destruct (decide (500 <= status_code r < 600)%Z) as [H5|H5].
  { split; [lia|]. intros _. apply append_cons_nonempty. }
  split; [done|lia].
Qed.

Lemma fetch_data_error u filepath w r :
  net u = inr r -> error_status r ->
  fetch_data net disk u filepath w
  = (inl (SystemExit (HTTPError (http_error_msg r))),
     mkWorld (files w) (trace w ++ [Get u])).
Proof.
  intros Hnet Herr%http_error_msg_nonempty.
  unfold fetch_data, try_except, mbind, M_bind, requests_get.
  rewrite Hnet. unfold raise_for_status.
  destruct (decide (http_error_msg r = "")); [done|]. done.
Qed.

(** After a response that is not an error, what happens is up to the
    file system. *)
Lemma fetch_data_checked u filepath w r :
  net u = inr r -> ~ error_status r ->
  fetch_data net disk u filepath w
  = match open_refused disk filepath with
    | Some msg =>
        (inl (OSError msg),
         mkWorld (files w) (trace w ++ [Get u; Open filepath]))
    | None =>
        match write_refused disk filepath (content r) with
        | Some (n, msg) =>
            (inl (OSError msg),
             mkWorld (<[filepath := take n (content r)]> (files w))
               (trace w ++ [Get u; Open filepath;
                            Write filepath (content r); Close filepath]))
        | None =>
            (inr tt,
             mkWorld (<[filepath := content r]> (files w))
               (trace w ++ [Get u; Open filepath;
                            Write filepath (content r); Close filepath]))
        end
    end.
Proof.
  intros Hnet Herr.
  unfold fetch_data, try_except, mbind, M_bind, requests_get.
  rewrite Hnet. unfold raise_for_status.
  destruct (decide (http_error_msg r = "")) as [E|E];
    [|by apply http_error_msg_nonempty in E].
  unfold with_open_wb, mbind, M_bind, open_wb, closing, write.
  cbn [files trace].
  destruct (open_refused disk filepath) as [msg|].
  { cbn. by rewrite <- !app_assoc. }
  cbn [files trace].
  destruct (write_refused disk filepath (content r)) as [[n msg]|];
    cbn; rewrite lookup_insert_eq, insert_insert_eq;
    by rewrite <- !app_assoc.
Qed.

Lemma fetch_data_ok u filepath w r :
  net u = inr r -> ~ error_status r ->
  open_refused disk filepath = None ->
  write_refused disk filepath (content r) = None ->
  fetch_data net disk u filepath w
  = (inr tt,
     mkWorld (<[filepath := content r]> (files w))
             (trace w ++ [Get u; Open filepath;
                          Write filepath (content r); Close filepath])).
Proof.
  intros Hnet Herr Ho Hw.
  by rewrite (fetch_data_checked _ _ _ _ Hnet Herr), Ho, Hw.
Qed.

Lemma requests_made_app t1 t2 :
  requests_made (t1 ++ t2) = (requests_made t1 ++ requests_made t2)%list.
Proof. apply flat_map_app. Qed.

(** C6: when the GET is answered with an error status, [fetch_data] ends
    in [SystemExit]; the files are what they were before the call, the
    destination included, and the only event added to the trace is the
    GET itself: the destination is neither opened nor written. *)
Theorem no_write_on_http_error u filepath w r :
  net u = inr r -> error_status r ->
  fst (fetch_data net disk u filepath w)
    = inl (SystemExit (HTTPError (http_error_msg r))) /\
  files (snd (fetch_data net disk u filepath w)) = files w /\
  files (snd (fetch_data net disk u filepath w)) !! filepath
    = files w !! filepath /\
  trace (snd (fetch_data net disk u filepath w)) = (trace w ++ [Get u])%list.
Proof.
  intros Hnet Herr. by rewrite (fetch_data_error _ _ _ _ Hnet Herr).
Qed.

(** C7, as written, fails: a final 304 is not a 2xx status, yet nothing is
    raised and the (empty) body is written. *)
Lemma fatal_iff_non_2xx_refuted :
  ~ fatal_iff_non_2xx (fun _ => inr not_modified) permissive
      source_url raw_path (mkWorld ∅ []) not_modified.
Proof.
  unfold fatal_iff_non_2xx. intros [_ H].
  apply H; [|by vm_compute]. simpl. lia.
Qed.

(** C7 (amended): given a response, [fetch_data] raises [SystemExit]
    exactly when the status is from 400 to 599 (hence never 2xx; a status
    such as 304 is not 2xx and raises nothing).  Then [raise_for_status]
    raises [HTTPError] before any file call, the one [except] clause turns
    it into [SystemExit] carrying that same error with its message.  On
    any other status the call returns, or an [OSError] of [open] or
    [write] passes uncaught.  In every case [requests.get] is called
    once. *)
Theorem fatal_exactly_on_http_error u filepath w r :
  net u = inr r ->
  ((exists e, fst (fetch_data net disk u filepath w) = inl (SystemExit e))
   <-> error_status r) /\
  (error_status r -> ~ (200 <= status_code r < 300)%Z) /\
  (error_status r ->
     raise_for_status r w = (inl (HTTPError (http_error_msg r)), w) /\
     fst (fetch_data net disk u filepath w)
       = inl (SystemExit (HTTPError (http_error_msg r))) /\
     trace (snd (fetch_data net disk u filepath w))
       = (trace w ++ [Get u])%list) /\
  (~ error_status r ->
     fst (fetch_data net disk u filepath w) = inr tt \/
     exists msg, fst (fetch_data net disk u filepath w) = inl (OSError msg)) /\
  requests_made (trace (snd (fetch_data net disk u filepath w)))
    = (requests_made (trace w) ++ [u])%list.
Proof.
  intros Hnet. destruct (decide (error_status r)) as [Herr|Hok].
  - rewrite (fetch_data_error _ _ _ _ Hnet Herr). cbn [fst snd trace].
    split; [split; [done|by eexists]|].
    split; [unfold error_status; lia|].
    split; [|split; [done|by rewrite requests_made_app]].
    intros _. split; [|done]. unfold raise_for_status.
    destruct (decide (http_error_msg r = "")) as [E|E]; [|done].
    by apply http_error_msg_nonempty in Herr.
  - rewrite (fetch_data_checked _ _ _ _ Hnet Hok).
    destruct (open_refused disk filepath) as [msg|];
      [|destruct (write_refused disk filepath (content r)) as [[n msg]|]];
      cbn [fst snd trace];
      (split; [split; [intros [e [=]]|done]|]);
      (split; [done|]); (split; [done|]);
      (split; [intros _; eauto|by rewrite requests_made_app]).
Qed.

(** X10: an exception of [requests.get] itself is not an [HTTPError]: the
    [except] clause lets it pass, and nothing is written either. *)
Lemma fetch_data_no_response u filepath w msg :
  net u = inl (RequestException msg) ->
  fetch_data net disk u filepath w
  = (inl (RequestException msg), mkWorld (files w) (trace w ++ [Get u])).
Proof.
  intros Hnet. unfold fetch_data, try_except, mbind, M_bind, requests_get.
  by rewrite Hnet.
Qed.

(** X11: the whole fetch stage: the error leaves [main] before its last
    message, with the files as they were. *)
Lemma main_aborts_on_http_error w r :
  net source_url = inr r -> error_status r ->
  fst (main net disk w) = inl (SystemExit (HTTPError (http_error_msg r))) /\
  files (snd (main net disk w)) = files w /\
  Print "Data fetch completed successfully." ∉
    drop (length (trace w)) (trace (snd (main net disk w))).
Proof.
  intros Hnet Herr. unfold main, mbind, M_bind, emit. cbn [files trace].
  rewrite (fetch_data_error _ _ _ _ Hnet Herr). cbn [fst snd files trace].
  split; [done|]. split; [done|].
  rewrite <- !app_assoc. rewrite drop_app_length. cbn.
  rewrite !elem_of_cons, elem_of_nil. intros [?|[?|[?|[?|[]]]]]; done.
Qed.

End FetcherClaims.

Lemma no_write_on_http_error_witness :
  (fun _ => inr Fetcher.not_found) Fetcher.source_url
    = (inr Fetcher.not_found : Fetcher.exn + Fetcher.Response) /\
  Fetcher.error_status Fetcher.not_found /\
  Fetcher.files
    (snd (Fetcher.fetch_data (fun _ => inr Fetcher.not_found)
            Fetcher.permissive Fetcher.source_url Fetcher.raw_path
            (Fetcher.mkWorld {[ Fetcher.raw_path := [Byte.x41] ]} [])))
    !! Fetcher.raw_path = Some [Byte.x41].
Proof.
  assert (H : Fetcher.error_status Fetcher.not_found).
  { unfold Fetcher.error_status. simpl. lia. }
  split; [reflexivity|]. split; [exact H|].
  destruct (no_write_on_http_error (fun _ => inr Fetcher.not_found)
              Fetcher.permissive Fetcher.source_url Fetcher.raw_path
              (Fetcher.mkWorld {[ Fetcher.raw_path := [Byte.x41] ]} [])
              Fetcher.not_found eq_refl H) as (_ & _ & -> & _).
  apply lookup_singleton_eq.
Defined.

Lemma fatal_exactly_on_http_error_witness :
  (fun _ => inr Fetcher.not_found) Fetcher.source_url
    = (inr Fetcher.not_found : Fetcher.exn + Fetcher.Response) /\
  Fetcher.requests_made
    (Fetcher.trace
       (snd (Fetcher.fetch_data (fun _ => inr Fetcher.not_found)
               Fetcher.no_data_dir Fetcher.source_url Fetcher.raw_path
               (Fetcher.mkWorld ∅ []))))
  = [Fetcher.source_url].
Proof.
  split; [reflexivity|].
  exact (proj2 (proj2 (proj2 (proj2
    (fatal_exactly_on_http_error (fun _ => inr Fetcher.not_found)
       Fetcher.no_data_dir Fetcher.source_url Fetcher.raw_path
       (Fetcher.mkWorld ∅ []) Fetcher.not_found eq_refl))))).
Defined.

(** ** Scenarios *)

(** Python: ["aaaaa".replace("aa", "b") == "bba"]. *)
Example str_replace_no_overlap :
  Text.str_replace "aa" "b" "aaaaa" = "bba".
Proof. reflexivity. Qed.

Example clean_name_los_angeles :
  Transformer.clean_name "Los Angeles County" = "Los Angeles".
Proof. reflexivity. Qed.

(** Of the sample rows, the earlier period, the metro row, the row without
    a price and the 4-week row are dropped. *)
Example filter_data_sample :
  Transformer.filter_data Transformer.sample
  = [ (1, Out.mk (Some "Los Angeles") (Some 800000%Q));
      (5, Out.mk (Some "Bethel") (Some 250000%Q)) ].
Proof. reflexivity. Qed.

Example max_dt_sample :
  Transformer.max_dt Transformer.sample = Some "2021-01-08".
Proof. reflexivity. Qed.

(** A missing label stops the transformer at the first lookup of it. *)
Example filter_data_missing_column :
  Typed.filter_data
    (Typed.mk ["period_end"; "region_type"; "region_name"]
              Typed.object Transformer.sample)
  = inl (Typed.KeyError "duration").
Proof. reflexivity. Qed.

(** A 404 leaves an earlier download in place. *)
Example fetch_not_found :
  Fetcher.fetch_data (fun _ => inr Fetcher.not_found) Fetcher.permissive
    Fetcher.source_url Fetcher.raw_path
    (Fetcher.mkWorld {[ Fetcher.raw_path := [Byte.x41] ]} [])
  = (inl (Fetcher.SystemExit
            (Fetcher.HTTPError
               ("404 Client Error: Not Found for url: "
                +:+ Fetcher.source_url))),
     Fetcher.mkWorld {[ Fetcher.raw_path := [Byte.x41] ]}
                     [Fetcher.Get Fetcher.source_url]).
Proof. reflexivity. Qed.

(** A final 3xx status is not an error status: the body is written. *)
Example fetch_not_modified :
  Fetcher.fetch_data (fun _ => inr Fetcher.not_modified) Fetcher.permissive
    Fetcher.source_url Fetcher.raw_path
    (Fetcher.mkWorld {[ Fetcher.raw_path := [Byte.x41] ]} [])
  = (inr tt,
     Fetcher.mkWorld {[ Fetcher.raw_path := [] ]}
       [Fetcher.Get Fetcher.source_url; Fetcher.Open Fetcher.raw_path;
        Fetcher.Write Fetcher.raw_path []; Fetcher.Close Fetcher.raw_path]).
Proof. by vm_compute. Qed.

(** Without the data directory a good response ends in the [OSError] of
    [open], after the GET and the attempt to open. *)
Example fetch_without_directory :
  Fetcher.fetch_data (fun _ => inr (Fetcher.served [Byte.x42]))
    Fetcher.no_data_dir Fetcher.source_url Fetcher.raw_path
    (Fetcher.mkWorld ∅ [])
  = (inl (Fetcher.OSError "[Errno 2] No such file or directory"),
     Fetcher.mkWorld ∅
       [Fetcher.Get Fetcher.source_url; Fetcher.Open Fetcher.raw_path]).
Proof. by vm_compute. Qed.

(** A successful run of the fetch stage: the body replaces what was there. *)
Example main_success :
  Fetcher.main (fun _ => inr (Fetcher.served [Byte.x42])) Fetcher.permissive
    (Fetcher.mkWorld {[ Fetcher.raw_path := [Byte.x41] ]} [])
  = (inr tt,
     Fetcher.mkWorld {[ Fetcher.raw_path := [Byte.x42] ]}
       [Fetcher.Print "Added current directory to system path.";
        Fetcher.Print "File will be saved to: ../data/redfin_raw.csv";
        Fetcher.Print ("Fetching data from: " +:+ Fetcher.source_url);
        Fetcher.Get Fetcher.source_url; Fetcher.Open Fetcher.raw_path;
        Fetcher.Write Fetcher.raw_path [Byte.x42];
        Fetcher.Close Fetcher.raw_path;
        Fetcher.Print "Data fetch completed successfully."]).
Proof. by vm_compute. Qed.

(** * Further properties of the code *)

(** ** Cleaning never adds text *)

Section CleaningLength.
Import Text Transformer.

Lemma replace_go_length old k s :
  String.length (replace_go old "" k s) <= String.length s.
Proof.
  revert k; induction s as [|c s IH]; intros k; [done|].
  cbn [replace_go]. destruct k as [|k].
  - destruct (String.prefix old (String c s)).
    + change ("" +:+ ?x) with x. specialize (IH (String.length old - 1)).
      simpl. lia.
    + specialize (IH 0). simpl. lia.
  - specialize (IH k). simpl. lia.
Qed.

Lemma str_replace_length old s :
  String.length (str_replace old "" s) <= String.length s.
Proof. apply replace_go_length. Qed.

(** Removing a substring that is there makes the text shorter. *)
Lemma str_replace_shrinks old s :
  old <> "" -> contains old s = true ->
  String.length (str_replace old "" s) < String.length s.
Proof.
  intros Hne. induction s as [|c s IH]; intros H.
  - destruct old; [done|discriminate].
  - unfold str_replace. cbn [replace_go].
    destruct (String.prefix old (String c s)) eqn:E.
    + change ("" +:+ ?x) with x.
      pose proof (replace_go_length old (String.length old - 1) s).
      simpl. lia.
    + cbn [contains] in H. rewrite E in H. simpl in H.
      specialize (IH H). unfold str_replace in IH. simpl. lia.
Qed.

Lemma str_replace_fixed old s :
  old <> "" ->
  String.length (str_replace old "" s) = String.length s ->
  contains old s = false.
Proof.
  intros Hne H. destruct (contains old s) eqn:E; [|done].
  apply str_replace_shrinks in E; [lia|done].
Qed.

(** X1: the cleaned name is never longer than the name. *)
Theorem clean_name_never_longer s :
  String.length (clean_name s) <= String.length s.
Proof.
  unfold clean_name.
  repeat (etrans; [apply str_replace_length|]). done.
Qed.

(** X2: a name is left as it is exactly when it holds none of the four
    substrings. *)
Theorem clean_name_unchanged_iff s :
  clean_name s = s <->
  contains " County" s = false /\ contains " Parish" s = false /\
  contains " Census Area" s = false /\ contains " Borough" s = false.
Proof.
  split.
  - intros H. apply (f_equal String.length) in H. unfold clean_name in H.
    set (s1 := str_replace " County" "" s) in *.
    set (s2 := str_replace " Parish" "" s1) in *.
    set (s3 := str_replace " Census Area" "" s2) in *.
    pose proof (str_replace_length " County" s) as L1.
    pose proof (str_replace_length " Parish" s1) as L2.
    pose proof (str_replace_length " Census Area" s2) as L3.
    pose proof (str_replace_length " Borough" s3) as L4.
    fold s1 in L1. fold s2 in L2. fold s3 in L3.
    assert (H1 : contains " County" s = false).
    { apply str_replace_fixed; [done|]. fold s1. lia. }
    assert (E1 : s1 = s) by by apply str_replace_absent.
    assert (H2 : contains " Parish" s1 = false).
    { apply str_replace_fixed; [done|]. fold s2. lia. }
    assert (E2 : s2 = s1) by by apply str_replace_absent.
    assert (H3 : contains " Census Area" s2 = false).
    { apply str_replace_fixed; [done|]. fold s3. lia. }
    assert (E3 : s3 = s2) by by apply str_replace_absent.
    assert (H4 : contains " Borough" s3 = false).
    { apply str_replace_fixed; [done|]. lia. }
    rewrite E3, E2, E1 in H4. rewrite E2, E1 in H3. rewrite E1 in H2.
    done.
  - intros (H1 & H2 & H3 & H4). unfold clean_name.
    by rewrite (str_replace_absent " County"), (str_replace_absent " Parish"),
      (str_replace_absent " Census Area"), (str_replace_absent " Borough").
Qed.

End CleaningLength.

(** ** The latest period decides the output *)

Section LatestPeriod.
Import Transformer Clean.

Lemma max_dt_Permutation (df df' : Frame Raw.row) :
  df ≡ₚ df' -> max_dt df = max_dt df'.
Proof.
  intros HP. unfold max_dt.
  assert (HP' : column Raw.period_end df ≡ₚ column Raw.period_end df').
  { unfold column. change map with (@fmap list _). by rewrite HP. }
  destruct (series_max (column Raw.period_end df)) as [m|] eqn:E.
  - apply series_max_spec in E as [Hin Hub]. symmetry.
    apply series_max_unique.
    + by rewrite <- HP'.
    + intros d Hd. apply Hub. by rewrite HP'.
  - apply series_max_None in E. rewrite E in HP'.
    apply Permutation_nil_l in HP'. by rewrite <- HP'.
Qed.

Lemma List_filter_Permutation {A} (f : A -> bool) (l l' : list A) :
  l ≡ₚ l' -> List.filter f l ≡ₚ List.filter f l'.
Proof.
  induction 1 as [|x l l' _ IH|x y l|l1 l2 l3 _ IH1 _ IH2]; simpl.
  - done.
  - destruct (f x); by rewrite IH.
  - destruct (f x), (f y); try done. apply perm_swap.
  - by etrans.
Qed.

(** X3: reordering the rows of the input reorders the rows of the output
    and changes nothing else. *)
Theorem filter_data_Permutation (df df' : Frame Raw.row) :
  df ≡ₚ df' -> filter_data df ≡ₚ filter_data df'.
Proof.
  intros HP. rewrite !filter_data_rows, !select_rows_keep.
  rewrite <- (max_dt_Permutation _ _ HP).
  change map with (@fmap list _). apply fmap_Permutation.
  by apply List_filter_Permutation.
Qed.

Lemma max_dt_latest_rows (df : Frame Raw.row) :
  max_dt (latest_rows df) = max_dt df.
Proof.
  destruct (max_dt df) as [m|] eqn:E.
  - pose proof E as E'. apply series_max_spec in E' as [Hin _].
    unfold column in Hin. change map with (@fmap list _) in Hin.
    apply list_elem_of_fmap in Hin as ([i r] & Hm & Hin). simpl in Hm.
    assert (Hl : (i, r) ∈ latest_rows df).
    { unfold latest_rows. rewrite list_elem_of_In, List.filter_In.
      split; [by apply list_elem_of_In|].
      rewrite E. simpl. subst m. apply String.eqb_refl. }
    apply series_max_const.
    + intros Hnil. unfold column in Hnil.
      destruct (latest_rows df); [by apply elem_of_nil in Hl|done].
    + intros d Hd. unfold column in Hd. change map with (@fmap list _) in Hd.
      apply list_elem_of_fmap in Hd as ([j r'] & -> & Hj).
      unfold latest_rows in Hj. rewrite list_elem_of_In, List.filter_In in Hj.
      destruct Hj as [_ Hj]. rewrite E in Hj. simpl in *.
      by apply String.eqb_eq in Hj.
  - apply series_max_None in E. unfold column in E.
    destruct df; [done|discriminate].
Qed.

(** X4: rows of earlier periods do not matter: the table cut down to the
    rows at its greatest period_end gives the same output. *)
Theorem filter_data_latest_rows (df : Frame Raw.row) :
  filter_data (latest_rows df) = filter_data df.
Proof.
  rewrite !filter_data_rows, !select_rows_keep, max_dt_latest_rows.
  f_equal. unfold latest_rows. rewrite filter_filter.
  apply List.filter_ext. intros [i r]. simpl. unfold keep.
  destruct (at_period (max_dt df) (Raw.period_end r));
    [done|by rewrite !andb_false_r].
Qed.

Lemma filter_none {A} (f : A -> bool) (l : list A) :
  (forall x, x ∈ l -> f x = false) -> List.filter f l = [].
Proof.
  induction l as [|x l IH]; intros H; [done|]. simpl.
  rewrite (H x) by apply list_elem_of_here.
  apply IH. intros y Hy. by apply H, list_elem_of_further.
Qed.

(** X5: when no row at the greatest period_end passes the three row
    conditions the output is empty, whatever the earlier periods hold. *)
Theorem filter_data_empty_when_latest_rejected (df : Frame Raw.row) :
  (forall i r, (i, r) ∈ df -> max_dt df = Some (Raw.period_end r) ->
     rejected r) ->
  filter_data df = [].
Proof.
  intros H. rewrite filter_data_rows, select_rows_keep.
  rewrite filter_none; [done|].
  intros [i r] Hin. simpl. destruct (keep (max_dt df) r) eqn:E; [|done].
  pose proof E as E'. apply keep_fields in E' as (_ & _ & _ & Hm).
  by rewrite (rejected_not_kept _ _ (H i r Hin Hm)) in E.
Qed.

Lemma filter_data_empty_when_latest_rejected_witness :
  (forall i r, (i, r) ∈ stale -> max_dt stale = Some (Raw.period_end r) ->
     rejected r) /\
  filter_data stale = [].
Proof.
  assert (H : forall i r, (i, r) ∈ stale ->
                max_dt stale = Some (Raw.period_end r) -> rejected r).
  { intros i r Hin Hm. vm_compute in Hin.
    apply elem_of_cons in Hin as [Hin|Hin].
    - injection Hin as -> ->. vm_compute in Hm. discriminate.
    - apply list_elem_of_singleton in Hin. injection Hin as -> ->.
      left. simpl. discriminate. }
  split; [exact H|]. exact (filter_data_empty_when_latest_rejected stale H).
Defined.

Lemma max_dt_app (df1 df2 : Frame Raw.row) :
  max_dt df1 = max_dt df2 -> max_dt (df1 ++ df2)%list = max_dt df1.
Proof.
  intros E. destruct (max_dt df1) as [m|] eqn:E1.
  - symmetry in E. apply series_max_spec in E1 as [Hin1 Hub1].
    apply series_max_spec in E as [Hin2 Hub2].
    unfold max_dt, column. rewrite map_app. apply series_max_unique.
    + apply elem_of_app. by left.
    + intros d [Hd|Hd]%elem_of_app; auto.
  - symmetry in E. apply series_max_None in E1. apply series_max_None in E.
    unfold column in *. destruct df1; [|discriminate].
    destruct df2; [done|discriminate].
Qed.

(** X6: two tables with the same greatest period_end can be transformed
    apart:
    the output of their concatenation is the concatenation of their
    outputs. *)
Theorem filter_data_app (df1 df2 : Frame Raw.row) :
  max_dt df1 = max_dt df2 ->
  filter_data (df1 ++ df2)%list = (filter_data df1 ++ filter_data df2)%list.
Proof.
  intros E. rewrite !filter_data_rows, !select_rows_keep.
  rewrite (max_dt_app _ _ E), List.filter_app, map_app. by rewrite <- E.
Qed.

Lemma filter_data_app_witness :
  max_dt sample = max_dt settled /\
  filter_data (sample ++ settled)%list
  = (filter_data sample ++ filter_data settled)%list.
Proof.
  assert (H : max_dt sample = max_dt settled) by reflexivity.
  split; [exact H|]. exact (filter_data_app sample settled H).
Defined.

(** X7: on a table as [read_csv] numbers it, an output row's index label is
    the position of its source row in the file; the labels of the output
    are distinct and the output is no longer than the input. *)
Theorem filter_data_labels_are_positions (rows : list Raw.row) :
  (forall i o, (i, o) ∈ filter_data (range_index rows) ->
     exists r, rows !! i = Some r /\ o = out_row r) /\
  NoDup (map fst (filter_data (range_index rows))) /\
  length (filter_data (range_index rows)) <= length rows.
Proof.
  assert (Hfst : (range_index rows).*1 = seq 0 (length rows)).
  { unfold range_index. apply fst_zip. by rewrite length_seq. }
  assert (Hsub : (filter_data (range_index rows)).*1
                 `sublist_of` seq 0 (length rows)).
  { rewrite <- Hfst, filter_data_rows.
    change map with (@fmap list _). rewrite <- list_fmap_compose.
    apply fmap_sublist, select_rows_sublist. }
  split; [|split].
  - intros i o (r & Hin & _ & ->)%elem_of_filter_data. exists r.
    split; [|done]. unfold range_index in Hin.
    apply list_elem_of_lookup in Hin as [k Hk].
    apply lookup_zip_with_Some in Hk as (a & b & [= -> ->] & Ha & Hb).
    apply lookup_seq in Ha as [-> _]. done.
  - change map with (@fmap list _).
    eapply sublist_NoDup; [apply NoDup_seq|exact Hsub].
  - apply sublist_length in Hsub.
    by rewrite length_fmap, length_seq in Hsub.
Qed.

End LatestPeriod.

(** ** The fetch stage, whatever the network and the disk answer *)

Section FetchOutcomes.
Import Fetcher.
Variable net : string -> exn + Response.
Variable disk : Disk.

(** X8: whatever [requests.get] and the file system do, [fetch_data]
    calls [requests.get] once and touches no file but its destination.
    If it returns, the response was not an error, nothing was refused, and
    the destination holds exactly the response body.  If it raises, the
    exception is never a bare [HTTPError], and the files are as before
    unless it was the write that broke off: then the destination holds the
    part of the body that went through. *)
Theorem fetch_data_outcomes u filepath w :
  (forall p, p <> filepath ->
     files (snd (fetch_data net disk u filepath w)) !! p = files w !! p) /\
  requests_made (trace (snd (fetch_data net disk u filepath w)))
    = (requests_made (trace w) ++ [u])%list /\
  match fst (fetch_data net disk u filepath w) with
  | inr _ =>
      exists r, net u = inr r /\ ~ error_status r /\
        open_refused disk filepath = None /\
        write_refused disk filepath (content r) = None /\
        files (snd (fetch_data net disk u filepath w)) !! filepath
          = Some (content r)
  | inl e =>
      (forall msg, e <> HTTPError msg) /\
      (files (snd (fetch_data net disk u filepath w)) = files w \/
       exists r n msg,
         net u = inr r /\
         write_refused disk filepath (content r) = Some (n, msg) /\
         e = OSError msg /\
         files (snd (fetch_data net disk u filepath w)) !! filepath
           = Some (take n (content r)))
  end.
Proof.
  destruct (net u) as [e|r] eqn:Hnet.
  - assert (E : fetch_data net disk u filepath w
                = (inl (match e with HTTPError _ => SystemExit e | _ => e end),
                   mkWorld (files w) (trace w ++ [Get u]))).
    { unfold fetch_data, try_except, mbind, M_bind, requests_get.
      rewrite Hnet. by destruct e. }
    rewrite E. cbn [fst snd files trace].
    split; [done|]. split; [by rewrite requests_made_app|].
    split; [by destruct e|by left].
  - destruct (decide (error_status r)) as [Herr|Hok].
    + rewrite (fetch_data_error _ _ _ _ _ _ Hnet Herr).
      cbn [fst snd files trace].
      split; [done|]. split; [by rewrite requests_made_app|].
      split; [done|by left].
    + rewrite (fetch_data_checked _ _ _ _ _ _ Hnet Hok).
      destruct (open_refused disk filepath) as [msg|] eqn:Ho;
        [|destruct (write_refused disk filepath (content r))
            as [[n msg]|] eqn:Hw];
        cbn [fst snd files trace].
      * split; [done|]. split; [by rewrite requests_made_app|].
        split; [done|by left].
      * split; [intros p Hp; by rewrite lookup_insert_ne|].
        split; [by rewrite requests_made_app|]. split; [done|].
        right. exists r, n, msg. by rewrite lookup_insert_eq.
      * split; [intros p Hp; by rewrite lookup_insert_ne|].
        split; [by rewrite requests_made_app|].
        exists r. by rewrite lookup_insert_eq.
Qed.

(** X9: fetching again with the same answer leaves the files as the first
    fetch left them. *)
Theorem fetch_data_twice u filepath w :
  files (snd (fetch_data net disk u filepath
                (snd (fetch_data net disk u filepath w))))
  = files (snd (fetch_data net disk u filepath w)).
Proof.
  destruct (net u) as [e|r] eqn:Hnet.
  - assert (E : forall w', files (snd (fetch_data net disk u filepath w'))
                           = files w').
    { intros w'. unfold fetch_data, try_except, mbind, M_bind, requests_get.
      rewrite Hnet. by destruct e. }
    by rewrite !E.
  - destruct (decide (error_status r)) as [Herr|Hok].
    + by rewrite !(fetch_data_error _ _ _ _ _ _ Hnet Herr).
    + rewrite !(fetch_data_checked _ _ _ _ _ _ Hnet Hok).
      destruct (open_refused disk filepath) as [msg|]; [done|].
      destruct (write_refused disk filepath (content r)) as [[n msg]|];
        cbn [snd files]; by rewrite insert_insert_eq.
Qed.

(** X12: when the response is not an error and the system refuses neither
    the open nor the write of the raw path, the fetch stage prints its
    three announcements, downloads, writes the body to the raw path, and
    prints the closing line. *)
Theorem main_completes w r :
  net source_url = inr r -> ~ error_status r ->
  open_refused disk raw_path = None ->
  write_refused disk raw_path (content r) = None ->
  main net disk w
  = (inr tt,
     mkWorld (<[raw_path := content r]> (files w))
       (trace w ++
        [Print "Added current directory to system path.";
         Print "File will be saved to: ../data/redfin_raw.csv";
         Print ("Fetching data from: " +:+ source_url);
         Get source_url; Open raw_path; Write raw_path (content r);
         Close raw_path;
         Print "Data fetch completed successfully."])%list).
Proof.
  intros Hnet Hok Ho Hw. unfold main, mbind, M_bind, emit. cbn [files trace].
  rewrite (fetch_data_ok _ _ _ _ _ _ Hnet Hok Ho Hw). cbn [files trace].
  by rewrite <- !app_assoc.
Qed.

(** X18: when the response is not an error but the system refuses to open
    the raw path (the data directory is not there), the fetch stage ends
    in that [OSError], uncaught and not as [SystemExit]; no file is
    created or changed and the closing line is not printed. *)
Theorem main_stops_when_open_refused w r msg :
  net source_url = inr r -> ~ error_status r ->
  open_refused disk raw_path = Some msg ->
  main net disk w
  = (inl (OSError msg),
     mkWorld (files w)
       (trace w ++
        [Print "Added current directory to system path.";
         Print "File will be saved to: ../data/redfin_raw.csv";
         Print ("Fetching data from: " +:+ source_url);
         Get source_url; Open raw_path])%list).
Proof.
  intros Hnet Hok Ho. unfold main, mbind, M_bind, emit. cbn [files trace].
  rewrite (fetch_data_checked _ _ _ _ _ _ Hnet Hok), Ho.
  cbn [files trace]. by rewrite <- !app_assoc.
Qed.

End FetchOutcomes.

Lemma fetch_data_no_response_witness :
  (fun _ => inl (Fetcher.RequestException "timed out")) Fetcher.source_url
    = (inl (Fetcher.RequestException "timed out")
         : Fetcher.exn + Fetcher.Response) /\
  Fetcher.fetch_data (fun _ => inl (Fetcher.RequestException "timed out"))
    Fetcher.permissive Fetcher.source_url Fetcher.raw_path
    (Fetcher.mkWorld ∅ [])
  = (inl (Fetcher.RequestException "timed out"),
     Fetcher.mkWorld ∅ [Fetcher.Get Fetcher.source_url]).
Proof.
  split; [reflexivity|].
  exact (fetch_data_no_response
           (fun _ => inl (Fetcher.RequestException "timed out"))
           Fetcher.permissive
           Fetcher.source_url Fetcher.raw_path (Fetcher.mkWorld ∅ [])
           "timed out" eq_refl).
Defined.

Lemma main_aborts_on_http_error_witness :
  (fun _ => inr Fetcher.not_found) Fetcher.source_url
    = (inr Fetcher.not_found : Fetcher.exn + Fetcher.Response) /\
  Fetcher.error_status Fetcher.not_found /\
  Fetcher.files
    (snd (Fetcher.main (fun _ => inr Fetcher.not_found) Fetcher.permissive
            (Fetcher.mkWorld {[ Fetcher.raw_path := [Byte.x41] ]} [])))
  = {[ Fetcher.raw_path := [Byte.x41] ]}.
Proof.
  assert (H : Fetcher.error_status Fetcher.not_found).
  { unfold Fetcher.error_status. simpl. lia. }
  split; [reflexivity|]. split; [exact H|].
  exact (proj1 (proj2
    (main_aborts_on_http_error (fun _ => inr Fetcher.not_found)
       Fetcher.permissive
       (Fetcher.mkWorld {[ Fetcher.raw_path := [Byte.x41] ]} [])
       Fetcher.not_found eq_refl H))).
Defined.

Lemma main_completes_witness :
  (fun _ => inr (Fetcher.served [Byte.x42])) Fetcher.source_url
    = (inr (Fetcher.served [Byte.x42]) : Fetcher.exn + Fetcher.Response) /\
  ~ Fetcher.error_status (Fetcher.served [Byte.x42]) /\
  Fetcher.open_refused Fetcher.permissive Fetcher.raw_path = None /\
  Fetcher.write_refused Fetcher.permissive Fetcher.raw_path [Byte.x42]
    = None /\
  fst (Fetcher.main (fun _ => inr (Fetcher.served [Byte.x42]))
         Fetcher.permissive
         (Fetcher.mkWorld {[ Fetcher.raw_path := [Byte.x41] ]} []))
  = inr tt.
Proof.
  assert (H : ~ Fetcher.error_status (Fetcher.served [Byte.x42])).
  { unfold Fetcher.error_status. simpl. lia. }
  split; [reflexivity|]. split; [exact H|].
  split; [reflexivity|]. split; [reflexivity|].
  by rewrite (main_completes (fun _ => inr (Fetcher.served [Byte.x42]))
                Fetcher.permissive
                (Fetcher.mkWorld {[ Fetcher.raw_path := [Byte.x41] ]} [])
                (Fetcher.served [Byte.x42]) eq_refl H eq_refl eq_refl).
Defined.

Lemma main_stops_when_open_refused_witness :
  (fun _ => inr (Fetcher.served [Byte.x42])) Fetcher.source_url
    = (inr (Fetcher.served [Byte.x42]) : Fetcher.exn + Fetcher.Response) /\
  ~ Fetcher.error_status (Fetcher.served [Byte.x42]) /\
  Fetcher.open_refused Fetcher.no_data_dir Fetcher.raw_path
    = Some "[Errno 2] No such file or directory" /\
  fst (Fetcher.main (fun _ => inr (Fetcher.served [Byte.x42]))
         Fetcher.no_data_dir (Fetcher.mkWorld ∅ []))
  = inl (Fetcher.OSError "[Errno 2] No such file or directory").
Proof.
  assert (H : ~ Fetcher.error_status (Fetcher.served [Byte.x42])).
  { unfold Fetcher.error_status. simpl. lia. }
  split; [reflexivity|]. split; [exact H|]. split; [reflexivity|].
  by rewrite (main_stops_when_open_refused
                (fun _ => inr (Fetcher.served [Byte.x42]))
                Fetcher.no_data_dir (Fetcher.mkWorld ∅ [])
                (Fetcher.served [Byte.x42]) _ eq_refl H eq_refl).
Defined.

(** ** The transform stage *)

Section TransformStage.
Import Transformer Clean.
Variable disk : Fetcher.Disk.
Variable read_csv : list Byte.byte -> string + (Typed.dtype * list Raw.row).
Variable to_csv : Typed.Cleaned -> list Byte.byte.

(** The stage, step by step. *)
Lemma main_run w :
  main disk read_csv to_csv w =
  match Fetcher.files w !! input_path with
  | None =>
      (inl (FileNotFoundError input_path),
       Fetcher.mkWorld (Fetcher.files w) (Fetcher.trace w ++ preamble))
  | Some data =>
      match read_csv data with
      | inl msg =>
          (inl (ValueError msg),
           Fetcher.mkWorld (Fetcher.files w) (Fetcher.trace w ++ preamble))
      | inr (dt, rows) =>
          match Typed.filter_data
                  (Typed.mk Typed.usecols dt (range_index rows)) with
          | inl e =>
              (inl (Raised e),
               Fetcher.mkWorld (Fetcher.files w)
                 (Fetcher.trace w ++ preamble ++ loaded))
          | inr res =>
              match Fetcher.open_refused disk output_path with
              | Some msg =>
                  (inl (OSError msg),
                   Fetcher.mkWorld (Fetcher.files w)
                     (Fetcher.trace w ++ preamble ++ loaded ++ saving
                      ++ [Fetcher.Open output_path]))
              | None =>
                  match Fetcher.write_refused disk output_path (to_csv res)
                  with
                  | Some (n, msg) =>
                      (inl (OSError msg),
                       Fetcher.mkWorld
                         (<[output_path := take n (to_csv res)]>
                            (Fetcher.files w))
                         (Fetcher.trace w ++ preamble ++ loaded ++ saving
                          ++ [Fetcher.Open output_path;
                              Fetcher.Write output_path (to_csv res);
                              Fetcher.Close output_path]))
                  | None =>
                      (inr tt,
                       Fetcher.mkWorld
                         (<[output_path := to_csv res]> (Fetcher.files w))
                         (Fetcher.trace w ++ preamble ++ loaded ++ saving
                          ++ [Fetcher.Open output_path;
                              Fetcher.Write output_path (to_csv res);
                              Fetcher.Close output_path;
                              Fetcher.Print "File saved successfully."]))
                  end
              end
          end
      end
  end.
Proof.
  unfold main, mbind, T_bind, print, load_redfin_data, pipe_filter_data, save,
    preamble, loaded, saving.
  cbn [Fetcher.files Fetcher.trace].
  destruct (Fetcher.files w !! input_path) as [data|];
    [|by rewrite <- !app_assoc].
  destruct (read_csv data) as [msg|[dt rows]]; [by rewrite <- !app_assoc|].
  cbn [Fetcher.files Fetcher.trace].
  destruct (Typed.filter_data _) as [e|res]; [by rewrite <- !app_assoc|].
  cbn [Fetcher.files Fetcher.trace].
  destruct (Fetcher.open_refused disk output_path) as [msg|];
    [by rewrite <- !app_assoc|].
  destruct (Fetcher.write_refused disk output_path (to_csv res))
    as [[n msg]|]; cbn [Fetcher.files Fetcher.trace];
    by rewrite <- !app_assoc.
Qed.

(** X13: when the raw file is not there, or [read_csv] rejects it, the stage
    stops with that failure right after announcing the load: no file is
    created or changed and nothing more is printed. *)
Theorem main_stops_when_load_fails w :
  (Fetcher.files w !! input_path = None ->
   main disk read_csv to_csv w
   = (inl (FileNotFoundError input_path),
      Fetcher.mkWorld (Fetcher.files w) (Fetcher.trace w ++ preamble))) /\
  (forall data msg,
     Fetcher.files w !! input_path = Some data -> read_csv data = inl msg ->
     main disk read_csv to_csv w
     = (inl (ValueError msg),
        Fetcher.mkWorld (Fetcher.files w) (Fetcher.trace w ++ preamble))).
Proof.
  split.
  - intros H. by rewrite main_run, H.
  - intros data msg H Hr. by rewrite main_run, H, Hr.
Qed.



(** X15: running the stage a second time leaves the files as the first run
    left them, whether it succeeds or fails. *)
Theorem main_rerun_same_files w :
  Fetcher.files (snd (main disk read_csv to_csv
                        (snd (main disk read_csv to_csv w))))
  = Fetcher.files (snd (main disk read_csv to_csv w)).
Proof.
  rewrite (main_run w).
  destruct (Fetcher.files w !! input_path) as [data|] eqn:H.
  2: { rewrite main_run. cbn [snd Fetcher.files]. by rewrite H. }
  destruct (read_csv data) as [msg|[dt rows]] eqn:Hr.
  { rewrite main_run. cbn [snd Fetcher.files]. by rewrite H, Hr. }
  destruct (Typed.filter_data _) as [e|res] eqn:Hf.
  { rewrite main_run. cbn [snd Fetcher.files]. by rewrite H, Hr, Hf. }
  destruct (Fetcher.open_refused disk output_path) as [msg|] eqn:Ho.
  { rewrite main_run. cbn [snd Fetcher.files]. by rewrite H, Hr, Hf, Ho. }
  destruct (Fetcher.write_refused disk output_path (to_csv res))
    as [[n msg]|] eqn:Hw;
    rewrite main_run; cbn [snd Fetcher.files];
    rewrite lookup_insert_ne by done;
    rewrite H, Hr, Hf, Ho, Hw; cbn [snd Fetcher.files];
    by rewrite insert_insert_eq.
Qed.


End TransformStage.

Lemma main_stops_when_load_fails_witness :
  (∅ : gmap string (list Byte.byte)) !! Clean.input_path = None /\
  Clean.main Fetcher.permissive Clean.read_sample Clean.write_counties
    (Fetcher.mkWorld ∅ [])
  = (inl (Clean.FileNotFoundError Clean.input_path),
     Fetcher.mkWorld ∅ Clean.preamble).
Proof.
  split; [reflexivity|].
  exact (proj1 (main_stops_when_load_fails Fetcher.permissive
                  Clean.read_sample Clean.write_counties
                  (Fetcher.mkWorld ∅ [])) eq_refl).
Defined.




Lemma filter_data_Permutation_witness :
  Transformer.settled ≡ₚ rev Transformer.settled /\
  Transformer.filter_data Transformer.settled
    ≡ₚ Transformer.filter_data (rev Transformer.settled).
Proof.
  assert (H : Transformer.settled ≡ₚ rev Transformer.settled).
  { unfold Transformer.settled. simpl. apply perm_swap. }
  split; [exact H|]. exact (filter_data_Permutation _ _ H).
Defined.
